(** * Space Strike: the simulation engine of the Game view

    A shallow embedding of the TypeScript sources of the game:
    the persistence helpers of [utils/gameStorage.ts], the reducers of
    [store/gameSlice.ts] that the Game view dispatches, the object factory
    of [controllers/gameController.ts] and the Game view itself
    (state hooks, refs, timers, the animation loop and its update passes).
    Meshes, materials and the scene are left out: of a mesh only the
    position and the properties stored on it are kept.

    Beside the Game view stand the code that the application keeps around
    it: the physics and input helpers of [handlers/InputHandler.ts], the
    keyboard hook, the whole of [store/gameSlice.ts], the collision
    handler, the provider of [context/GameContext.tsx], the game loop hook,
    the older Game view and the Home and Settings views of
    [views/Home.tsx], the settings panel and [store/settingsSlice.ts].

    Numbers.  JavaScript numbers are modelled exactly: integers ([Z]) for
    health, lives, score, points and millisecond clocks, rationals ([Q]) for
    positions, speeds, damage dealt by projectiles and lifetimes.  Stored
    rationals are kept in lowest terms ([Qred]), which does not change
    their value.  Square roots, rotations, normalisation and distances
    come from three.js and [Math]; the functions that use them are stated
    over any implementation ([Three]), and one executable implementation
    is given to run the view on concrete inputs.

    Closures.  A function defined in the body of a React component sees the
    [const] bindings of the render that created it.  Every such function
    below takes that render as an explicit argument ([Render]); a callback
    handed to [setTimeout], [setInterval] or [requestAnimationFrame] is kept
    together with the render it was created in.  Refs ([useRef]) are shared
    mutable cells and live in the state.

    Events.  The browser is an event loop: time passes and due timeouts
    run, the pending animation frame runs, the spawn interval fires, keys
    go down and up, buttons are clicked ([Event], [step], [run]). *)

From Stdlib Require Import ZArith QArith Qabs Qminmax List Bool Lia Lqa String.
Import ListNotations.

Local Open Scope Z_scope.

(* ================================================================== *)
(** * utils/gameStorage.ts *)
(* ================================================================== *)

Module GameStorage.

Record GameSettings := mkGameSettings {
  gs_difficulty : string;
  gs_soundEnabled : bool
}.

(** [interface GameData] *)
Record GameData := mkGameData {
  highScore : Z;
  lastPlayed : Z;
  totalGamesPlayed : Z;
  settings : option GameSettings
}.

(** [Partial<GameData>]: every field may be absent. *)
Record PartialGameData := mkPartial {
  p_highScore : option Z;
  p_lastPlayed : option Z;
  p_totalGamesPlayed : option Z;
  p_settings : option (option GameSettings)
}.

(** The two keys of [localStorage] that the repository uses, each with the
    parsed form of what is written there: the JSON record under
    [STORAGE_KEY = 'space-strike-data'] and the decimal text under
    ['highScore'].  Writes are taken to succeed. *)
Record LocalStorage := mkLocalStorage {
  item_data : option GameData;
  item_highScore : option Z
}.

Definition emptyStorage : LocalStorage := mkLocalStorage None None.

Definition defaultData : GameData :=
  mkGameData 0 0 0 (Some (mkGameSettings "medium" true)).

Definition loadGameData (ls : LocalStorage) : GameData :=
  match item_data ls with
  | Some savedData => savedData
  | None => defaultData
  end.

Definition orElse {A : Type} (o : option A) (d : A) : A :=
  match o with Some a => a | None => d end.

(** [{ ...existingData, ...data }] *)
Definition spread (existingData : GameData) (data : PartialGameData) : GameData :=
  mkGameData (orElse (p_highScore data) (highScore existingData))
             (orElse (p_lastPlayed data) (lastPlayed existingData))
             (orElse (p_totalGamesPlayed data) (totalGamesPlayed existingData))
             (orElse (p_settings data) (settings existingData)).

Definition saveGameData (data : PartialGameData) (ls : LocalStorage) : LocalStorage :=
  let existingData := loadGameData ls in
  let updatedData := spread existingData data in
  mkLocalStorage (Some updatedData) (item_highScore ls).

(** [updateHighScore(score)]; [now] is the value of [Date.now()]. *)
Definition updateHighScore (score : Z) (now : Z) (ls : LocalStorage) : LocalStorage :=
  let gameData := loadGameData ls in
  if highScore gameData <? score then
    let ls1 := saveGameData (mkPartial (Some score) (Some now) None None) ls in
    mkLocalStorage (item_data ls1) (Some score)
  else
    saveGameData (mkPartial None (Some now) None None) ls.

Definition incrementGamesPlayed (now : Z) (ls : LocalStorage) : LocalStorage :=
  let gameData := loadGameData ls in
  saveGameData
    (mkPartial None (Some now) (Some (totalGamesPlayed gameData + 1)) None) ls.

Definition saveGameSettings (s : option GameSettings) (ls : LocalStorage) : LocalStorage :=
  saveGameData (mkPartial None None None (Some s)) ls.

Definition clearGameData (ls : LocalStorage) : LocalStorage := emptyStorage.

(** The high score a later [loadGameData] reads back. *)
Definition persistedHighScore (ls : LocalStorage) : Z := highScore (loadGameData ls).

(** A run of [updateHighScore] calls, each with its score and the clock
    value at the call. *)
Fixpoint updateHighScores (calls : list (Z * Z)) (ls : LocalStorage) : LocalStorage :=
  match calls with
  | [] => ls
  | (score, now) :: rest => updateHighScores rest (updateHighScore score now ls)
  end.

End GameStorage.

(* ================================================================== *)
(** * store/gameSlice.ts *)
(* ================================================================== *)

Module GameSlice.

(** The scalar part of [GameState].  The slice also carries copies of the
    player, the enemies and the projectiles; the Game view dispatches only
    [endGame] and [incrementScore], which do not touch them. *)
Record GameState := mkGameState {
  isRunning : bool;
  isPaused : bool;
  level : Z;
  score : Z;
  highScore : Z;
  gameOver : bool
}.

(** [parseInt(localStorage.getItem('highScore') || '0', 10)] *)
Definition initialState (ls : GameStorage.LocalStorage) : GameState :=
  mkGameState false false 1 0
    (GameStorage.orElse (GameStorage.item_highScore ls) 0) false.

(** Reducer [endGame]; it also writes the ['highScore'] item. *)
Definition endGame (state : GameState) (ls : GameStorage.LocalStorage)
  : GameState * GameStorage.LocalStorage :=
  if highScore state <? score state then
    (mkGameState false (isPaused state) (level state) (score state) (score state) true,
     GameStorage.mkLocalStorage (GameStorage.item_data ls) (Some (score state)))
  else
    (mkGameState false (isPaused state) (level state) (score state) (highScore state) true,
     ls).

(** Reducer [incrementScore]. *)
Definition incrementScore (payload : Z) (state : GameState) : GameState :=
  mkGameState (isRunning state) (isPaused state) (level state)
    (score state + payload) (highScore state) (gameOver state).

End GameSlice.

(* ================================================================== *)
(** * Data of the Game view *)
(* ================================================================== *)

(** [difficulty: 'easy' | 'medium' | 'hard'] *)
Inductive Difficulty := easy | medium | hard.

(** What [useSettings()] hands to the view. *)
Record Settings := mkSettings {
  shipSpeed : Q;
  shipTorque : Q;
  fireSpeed : Q;
  fireStrength : Q;
  horizontalSpeed : Q;
  fireRate : Q;
  difficulty : Difficulty
}.

(** The bindings of one render of the component that its closures read:
    the settings and the values returned by [useState]. *)
Record Render := mkRender {
  r_settings : Settings;
  r_score : Z;
  r_isPaused : bool;
  r_gameOver : bool
}.

Record Vector3 := mkVector3 { vx : Q; vy : Q; vz : Q }.

(** [THREE.Euler], order XYZ. *)
Record Euler := mkEuler { ex : Q; ey : Q; ez : Q }.

(** What [createProjectile] returns: the mesh position and the fields of
    the wrapper object. *)
Record Projectile := mkProjectile {
  p_position : Vector3;
  p_velocity : Vector3;
  p_damage : Q;
  p_lifetime : Q
}.

(** What [createEnemy] returns.  [e_health] is the field of the wrapper
    object, set once; [e_mesh_health] is the property stored on the mesh,
    the one [takeDamage] decreases and tests. *)
Record Enemy := mkEnemy {
  e_position : Vector3;
  e_velocity : Vector3;
  e_health : Q;
  e_mesh_health : Q;
  e_points : Z
}.

Record Particle := mkParticle {
  pt_position : Vector3;
  pt_velocity : Vector3;
  pt_lifetime : Q;
  pt_opacity : Q
}.

(** What [createExplosion] returns. *)
Record Explosion := mkExplosion { particles : list Particle }.

(** [useState]: score, isPaused, playerHealth, playerLives, gameOver. *)
Record Hooks := mkHooks {
  score : Z;
  isPaused : bool;
  playerHealth : Z;
  playerLives : Z;
  gameOver : bool
}.

(** [playerRef.current] *)
Record PlayerRef := mkPlayerRef {
  position : Vector3;
  rotation : Euler;
  velocity : Vector3;
  lastFireTime : Z;
  isInvincible : bool
}.

(** [keysRef.current] *)
Record Keys := mkKeys {
  key_w : bool; key_a : bool; key_s : bool; key_d : bool;
  key_space : bool; key_q : bool; key_e : bool
}.

Inductive Key := Kw | Ka | Ks | Kd | Kspace | Kq | Ke | Kescape | Kother.

(** Callbacks handed to [setTimeout] by [damagePlayer], each with what it
    captured.  The blink interval of the damage feedback only toggles the
    visibility of the ship mesh and is left out with the rest of the
    rendering. *)
Inductive Callback :=
| cb_endGame (r : Render)
| cb_restoreHealth
| cb_clearInvincible.

(** The browser side: the clock read by [Date.now()], the pending
    timeouts with their due times in registration order, the spawn interval
    (period and the render its callback was created in), the render of the
    pending [animate], the render of the key listeners, and the values that
    [Math.random()] is going to return. *)
Record Browser := mkBrowser {
  clock : Z;
  timeouts : list (Z * Callback);
  spawnTimer : option (Z * Render);
  animation : option Render;
  keyListener : option Render;
  entropy : list Q
}.

Record State := mkState {
  settings : Settings;
  hooks : Hooks;
  playerRef : PlayerRef;
  projectilesRef : list Projectile;
  enemiesRef : list Enemy;
  effectsRef : list Explosion;
  keysRef : Keys;
  previousTimeRef : option Q;
  browser : Browser;
  redux : GameSlice.GameState;
  localStorage : GameStorage.LocalStorage;
  (** arguments of the calls of [updateHighScore] made so far, oldest first *)
  highScoreCalls : list Z
}.

(** ** Field updates *)

Definition with_hooks (h : Hooks) (st : State) : State :=
  mkState (settings st) h (playerRef st) (projectilesRef st) (enemiesRef st)
    (effectsRef st) (keysRef st) (previousTimeRef st) (browser st) (redux st)
    (localStorage st) (highScoreCalls st).

Definition with_playerRef (p : PlayerRef) (st : State) : State :=
  mkState (settings st) (hooks st) p (projectilesRef st) (enemiesRef st)
    (effectsRef st) (keysRef st) (previousTimeRef st) (browser st) (redux st)
    (localStorage st) (highScoreCalls st).

Definition with_projectiles (l : list Projectile) (st : State) : State :=
  mkState (settings st) (hooks st) (playerRef st) l (enemiesRef st)
    (effectsRef st) (keysRef st) (previousTimeRef st) (browser st) (redux st)
    (localStorage st) (highScoreCalls st).

Definition with_enemies (l : list Enemy) (st : State) : State :=
  mkState (settings st) (hooks st) (playerRef st) (projectilesRef st) l
    (effectsRef st) (keysRef st) (previousTimeRef st) (browser st) (redux st)
    (localStorage st) (highScoreCalls st).

Definition with_effects (l : list Explosion) (st : State) : State :=
  mkState (settings st) (hooks st) (playerRef st) (projectilesRef st) (enemiesRef st)
    l (keysRef st) (previousTimeRef st) (browser st) (redux st)
    (localStorage st) (highScoreCalls st).

Definition with_keys (k : Keys) (st : State) : State :=
  mkState (settings st) (hooks st) (playerRef st) (projectilesRef st) (enemiesRef st)
    (effectsRef st) k (previousTimeRef st) (browser st) (redux st)
    (localStorage st) (highScoreCalls st).

Definition with_previousTime (t : option Q) (st : State) : State :=
  mkState (settings st) (hooks st) (playerRef st) (projectilesRef st) (enemiesRef st)
    (effectsRef st) (keysRef st) t (browser st) (redux st)
    (localStorage st) (highScoreCalls st).

Definition with_browser (b : Browser) (st : State) : State :=
  mkState (settings st) (hooks st) (playerRef st) (projectilesRef st) (enemiesRef st)
    (effectsRef st) (keysRef st) (previousTimeRef st) b (redux st)
    (localStorage st) (highScoreCalls st).

Definition with_persistence (g : GameSlice.GameState) (ls : GameStorage.LocalStorage)
  (calls : list Z) (st : State) : State :=
  mkState (settings st) (hooks st) (playerRef st) (projectilesRef st) (enemiesRef st)
    (effectsRef st) (keysRef st) (previousTimeRef st) (browser st) g ls calls.

(** The state setters of [useState].  An updater function is applied to
    the latest value, and updates take effect in call order. *)
Definition setScore (f : Z -> Z) (st : State) : State :=
  let h := hooks st in
  with_hooks (mkHooks (f (score h)) (isPaused h) (playerHealth h) (playerLives h) (gameOver h)) st.

Definition setIsPaused (f : bool -> bool) (st : State) : State :=
  let h := hooks st in
  with_hooks (mkHooks (score h) (f (isPaused h)) (playerHealth h) (playerLives h) (gameOver h)) st.

Definition setPlayerHealth (f : Z -> Z) (st : State) : State :=
  let h := hooks st in
  with_hooks (mkHooks (score h) (isPaused h) (f (playerHealth h)) (playerLives h) (gameOver h)) st.

Definition setPlayerLives (f : Z -> Z) (st : State) : State :=
  let h := hooks st in
  with_hooks (mkHooks (score h) (isPaused h) (playerHealth h) (f (playerLives h)) (gameOver h)) st.

Definition setGameOver (b : bool) (st : State) : State :=
  let h := hooks st in
  with_hooks (mkHooks (score h) (isPaused h) (playerHealth h) (playerLives h) b) st.

(** Assignments to fields of [playerRef.current]. *)
Definition set_isInvincible (b : bool) (st : State) : State :=
  let p := playerRef st in
  with_playerRef (mkPlayerRef (position p) (rotation p) (velocity p) (lastFireTime p) b) st.

Definition set_lastFireTime (t : Z) (st : State) : State :=
  let p := playerRef st in
  with_playerRef (mkPlayerRef (position p) (rotation p) (velocity p) t (isInvincible p)) st.

Definition set_rotation (e : Euler) (st : State) : State :=
  let p := playerRef st in
  with_playerRef (mkPlayerRef (position p) e (velocity p) (lastFireTime p) (isInvincible p)) st.

Definition set_motion (pos vel : Vector3) (st : State) : State :=
  let p := playerRef st in
  with_playerRef (mkPlayerRef pos (rotation p) vel (lastFireTime p) (isInvincible p)) st.

(** Browser services. *)
Definition set_clock (t : Z) (st : State) : State :=
  let b := browser st in
  with_browser (mkBrowser t (timeouts b) (spawnTimer b) (animation b) (keyListener b) (entropy b)) st.

Definition set_timeouts (l : list (Z * Callback)) (st : State) : State :=
  let b := browser st in
  with_browser (mkBrowser (clock b) l (spawnTimer b) (animation b) (keyListener b) (entropy b)) st.

(** [setTimeout(cb, delay)] *)
Definition setTimeout (cb : Callback) (delay : Z) (st : State) : State :=
  set_timeouts (timeouts (browser st) ++ [(clock (browser st) + delay, cb)]) st.

(** [setInterval(callback, period)] for the spawn callback of render [r]. *)
Definition setInterval (r : Render) (period : Z) (st : State) : State :=
  let b := browser st in
  with_browser (mkBrowser (clock b) (timeouts b) (Some (period, r)) (animation b) (keyListener b) (entropy b)) st.

(** [requestAnimationFrame(animate)] for the [animate] of render [r]. *)
Definition requestAnimationFrame (r : Render) (st : State) : State :=
  let b := browser st in
  with_browser (mkBrowser (clock b) (timeouts b) (spawnTimer b) (Some r) (keyListener b) (entropy b)) st.

Definition addKeyListeners (r : Render) (st : State) : State :=
  let b := browser st in
  with_browser (mkBrowser (clock b) (timeouts b) (spawnTimer b) (animation b) (Some r) (entropy b)) st.

(** [Math.random()]: the next value of the supply, 0 once it is used up,
    and the state with that value taken away. *)
Definition Math_random (st : State) : Q * State :=
  let b := browser st in
  (hd 0%Q (entropy b),
   with_browser
     (mkBrowser (clock b) (timeouts b) (spawnTimer b) (animation b) (keyListener b)
        (tl (entropy b))) st).

(** The render the component would produce from the present state. *)
Definition currentRender (st : State) : Render :=
  mkRender (settings st) (score (hooks st)) (isPaused (hooks st)) (gameOver (hooks st)).

(* ================================================================== *)
(** * Vectors and comparisons *)
(* ================================================================== *)

Definition Qlt_bool (a b : Q) : bool := negb (Qle_bool b a).

(** [Math.abs] *)
Definition Math_abs (a : Q) : Q := Qabs a.

(** [v.add(w)]; the components are kept in lowest terms. *)
Definition add (v w : Vector3) : Vector3 :=
  mkVector3 (Qred (vx v + vx w)) (Qred (vy v + vy w)) (Qred (vz v + vz w)).

(** [v.multiplyScalar(s)] *)
Definition multiplyScalar (v : Vector3) (s : Q) : Vector3 :=
  mkVector3 (Qred (vx v * s)) (Qred (vy v * s)) (Qred (vz v * s)).

(** What the view takes from three.js and [Math] beyond field arithmetic:
    the square root, the rotation of a vector by Euler angles, the
    normalisation of a vector and the distance between two points. *)
Class Three := mkThree {
  Math_sqrt : Q -> Q;
  applyEuler : Vector3 -> Euler -> Vector3;
  normalize : Vector3 -> Vector3;
  distanceTo : Vector3 -> Vector3 -> Q
}.

(* ================================================================== *)
(** * controllers/gameController.ts *)
(* ================================================================== *)

Section GameController.

Context {three : Three}.

(** [createProjectile(position, direction, speed, damage = 1, lifetime = 2000)] *)
Definition createProjectile (position direction : Vector3) (speed : Q)
  (damage lifetime : option Q) : Projectile :=
  let damage := GameStorage.orElse damage 1%Q in
  let lifetime := GameStorage.orElse lifetime 2000%Q in
  let velocity := multiplyScalar (normalize direction) speed in
  mkProjectile position velocity damage lifetime.

(** [createEnemy(position, velocity, health = 10, points = 100, debug)] *)
Definition createEnemy (position velocity : Vector3) (health : option Q)
  (points : option Z) : Enemy :=
  let health := GameStorage.orElse health 10%Q in
  let points := GameStorage.orElse points 100 in
  mkEnemy position velocity health health points.

(** The [takeDamage] method of an enemy: the new enemy and whether it is
    destroyed. *)
Definition takeDamage (amount : Q) (enemy : Enemy) : Enemy * bool :=
  let h := Qred (e_mesh_health enemy - amount) in
  (mkEnemy (e_position enemy) (e_velocity enemy) (e_health enemy) h (e_points enemy),
   Qle_bool h 0).

(** One particle of [createExplosion]; the draws for size and colour are
    made and only affect the picture. *)
Definition createParticle (position : Vector3) (st : State) : Particle * State :=
  let '(_size, st) := Math_random st in
  let '(_colour, st) := Math_random st in
  let '(r_speed, st) := Math_random st in
  let speed := (r_speed * 5 + 3)%Q in
  let '(r1, st) := Math_random st in
  let '(r2, st) := Math_random st in
  let '(r3, st) := Math_random st in
  let direction := normalize (mkVector3 (r1 * 2 - 1) (r2 * 2 - 1) (r3 * 2 - 1)) in
  let '(r_life, st) := Math_random st in
  (mkParticle position (multiplyScalar direction speed) (Qred (r_life * 500 + 500)) 0.8%Q, st).

Fixpoint createParticles (n : nat) (position : Vector3) (st : State)
  : list Particle * State :=
  match n with
  | O => ([], st)
  | S n' =>
      let '(p, st) := createParticle position st in
      let '(ps, st) := createParticles n' position st in
      (p :: ps, st)
  end.

(** [createExplosion(position, particleCount = 15)] *)
Definition createExplosion (position : Vector3) (st : State) : Explosion * State :=
  let '(ps, st) := createParticles 15 position st in
  (mkExplosion ps, st).

(** [checkCollision(object1, object2, radius1, radius2)] on the positions
    of the two objects. *)
Definition checkCollision (position1 position2 : Vector3) (radius1 radius2 : Q) : bool :=
  let distance := distanceTo position1 position2 in
  Qlt_bool distance (radius1 + radius2).

End GameController.

(* ================================================================== *)
(** * The Game view *)
(* ================================================================== *)

(** The view is taken after its mount effect has run, so the scene, the
    game controller and the ship control exist and the early returns that
    test for them are not taken. *)

Section GameView.

Context {three : Three}.

(** [rotatePlayer(direction)] *)
Definition rotatePlayer (r : Render) (direction : Q) (st : State) : State :=
  let e := rotation (playerRef st) in
  set_rotation (mkEuler (ex e) (ey e) (Qred (ez e + direction * shipTorque (r_settings r)))) st.

(** [fireProjectile()] *)
Definition fireProjectile (r : Render) (st : State) : State :=
  let direction := applyEuler (mkVector3 0 1 0) (rotation (playerRef st)) in
  let projectile :=
    createProjectile (position (playerRef st)) direction
      (fireSpeed (r_settings r)) (Some (fireStrength (r_settings r))) None in
  with_projectiles (projectilesRef st ++ [projectile]) st.

(** The [switch (difficulty)] of [spawnEnemy]: health, speed and points. *)
Definition enemyProperties (d : Difficulty) : Q * Q * Z :=
  match d with
  | easy => (5%Q, 1.5%Q, 50)
  | medium => (10%Q, 2%Q, 100)
  | hard => (15%Q, 3%Q, 150)
  end.

(** [spawnEnemy()] *)
Definition spawnEnemy (r : Render) (st : State) : State :=
  let '(enemyHealth, enemySpeed, enemyPoints) := enemyProperties (difficulty (r_settings r)) in
  let '(rnd, st) := Math_random st in
  let randomX := Qred (rnd * 20 - 10) in
  let position := mkVector3 randomX 20 0 in
  let velocity := mkVector3 0 (- enemySpeed) 0 in
  let enemy := createEnemy position velocity (Some enemyHealth) (Some enemyPoints) in
  with_enemies (enemiesRef st ++ [enemy]) st.

(** [damagePlayer(amount)].  The guard reads the ref and the [gameOver] of
    the render; the updaters given to [setPlayerHealth] and
    [setPlayerLives] work on the latest health and lives, and the timeouts
    are set from inside them. *)
Definition damagePlayer (r : Render) (amount : Z) (st : State) : State :=
  if isInvincible (playerRef st) || r_gameOver r then st
  else
    let prevHealth := playerHealth (hooks st) in
    let newHealth := Z.max 0 (prevHealth - amount) in
    let st :=
      if newHealth =? 0 then
        let prevLives := playerLives (hooks st) in
        let newLives := prevLives - 1 in
        let st :=
          if newLives <=? 0 then setTimeout (cb_endGame r) 50 st
          else setTimeout cb_restoreHealth 500 st in
        setPlayerLives (fun _ => newLives) st
      else st in
    let st := setPlayerHealth (fun _ => newHealth) st in
    let st := set_isInvincible true st in
    setTimeout cb_clearInvincible 1000 st.

(** [endGame()]; [score] is the one of the render. *)
Definition endGame (r : Render) (st : State) : State :=
  let st := setGameOver true st in
  let st := setIsPaused (fun _ => true) st in
  let st := setPlayerLives (fun _ => 0) st in
  let dispatched := GameSlice.endGame (redux st) (localStorage st) in
  let ls := GameStorage.updateHighScore (r_score r) (clock (browser st)) (snd dispatched) in
  with_persistence (fst dispatched) ls (highScoreCalls st ++ [r_score r]) st.

(** The [switch (difficulty)] of [startGame]. *)
Definition spawnInterval (d : Difficulty) : Z :=
  match d with
  | easy => 3000
  | medium => 2000
  | hard => 1000
  end.

(** [startGame()]: registers the spawn interval and the animation loop. *)
Definition startGame (r : Render) (st : State) : State :=
  let st := setInterval r (spawnInterval (difficulty (r_settings r))) st in
  requestAnimationFrame r st.

(** The callback of the spawn interval, created by the [startGame] of
    render [r]. *)
Definition enemySpawnTimer (r : Render) (st : State) : State :=
  if negb (r_isPaused r) && negb (r_gameOver r) then spawnEnemy r st else st.

(** ** updateGame: input and movement *)

Definition updateGame_move (r : Render) (deltaTime : Q) (st : State) : State :=
  let keys := keysRef st in
  let moveY := ((if key_w keys then 1 else 0) - (if key_s keys then 1 else 0))%Q in
  let moveX := ((if key_d keys then 1 else 0) - (if key_a keys then 1 else 0))%Q in
  let '(moveX, moveY) :=
    if negb (Qeq_bool moveX 0) && negb (Qeq_bool moveY 0) then
      let length := Math_sqrt (moveX * moveX + moveY * moveY) in
      ((moveX / length)%Q, (moveY / length)%Q)
    else (moveX, moveY) in
  let p := playerRef st in
  let velX := Qred (moveX * horizontalSpeed (r_settings r)) in
  let velY := Qred (moveY * shipSpeed (r_settings r)) in
  let posX := Qred (vx (position p) + velX * deltaTime) in
  let posY := Qred (vy (position p) + velY * deltaTime) in
  let vel := multiplyScalar (mkVector3 velX velY (vz (velocity p))) 0.95 in
  let posX := Qmax (-15) (Qmin 15 posX) in
  let posY := Qmax (-15) (Qmin 15 posY) in
  set_motion (mkVector3 posX posY (vz (position p))) vel st.

(** ** updateGame: the weapon *)

(** The test that guards [fireProjectile()]. *)
Definition canFire (r : Render) (now lastFireTime : Z) : bool :=
  (lastFireTime =? 0) || Qlt_bool (fireRate (r_settings r) * 100) (inject_Z (now - lastFireTime)).

Definition updateGame_fire (r : Render) (st : State) : State :=
  if key_space (keysRef st) then
    let now := clock (browser st) in
    if canFire r now (lastFireTime (playerRef st)) then
      let st := fireProjectile r st in
      set_lastFireTime now st
    else st
  else st.

(** ** updateEffects *)

Definition updateParticle (deltaTime : Q) (p : Particle) : Particle :=
  let lifetime := Qred (pt_lifetime p - deltaTime * 1000) in
  mkParticle (add (pt_position p) (multiplyScalar (pt_velocity p) deltaTime))
    (pt_velocity p) lifetime (Qmin 1 (Qred (lifetime / 500))).

(** The loops run from the last index down and splice in place; every
    particle is treated on its own, so the outcome is a map and a filter. *)
Definition updateEffect (deltaTime : Q) (e : Explosion) : Explosion :=
  mkExplosion
    (filter (fun p => negb (Qle_bool (pt_lifetime p) 0))
       (map (updateParticle deltaTime) (particles e))).

Definition updateEffects (deltaTime : Q) (st : State) : State :=
  with_effects
    (filter (fun e => negb (Nat.eqb (List.length (particles e)) 0))
       (map (updateEffect deltaTime) (effectsRef st))) st.

(** ** updateProjectiles *)

Definition moveProjectile (deltaTime : Q) (p : Projectile) : Projectile :=
  mkProjectile (add (p_position p) (multiplyScalar (p_velocity p) deltaTime))
    (p_velocity p) (p_damage p) (Qred (p_lifetime p - deltaTime * 1000)).

Definition projectileExpired (p : Projectile) : bool :=
  Qle_bool (p_lifetime p) 0
  || Qlt_bool 20 (Math_abs (vx (p_position p)))
  || Qlt_bool 20 (Math_abs (vy (p_position p))).

Definition updateProjectiles (deltaTime : Q) (st : State) : State :=
  with_projectiles
    (filter (fun p => negb (projectileExpired p))
       (map (moveProjectile deltaTime) (projectilesRef st))) st.

(** ** updateEnemies *)

Definition bottomDamage (d : Difficulty) : Z :=
  match d with
  | easy => 10
  | medium => 20
  | hard => 30
  end.

Definition collisionDamage (d : Difficulty) : Z :=
  match d with
  | easy => 20
  | medium => 30
  | hard => 50
  end.

Definition moveEnemy (deltaTime : Q) (e : Enemy) : Enemy :=
  mkEnemy (add (e_position e) (multiplyScalar (e_velocity e) deltaTime))
    (e_velocity e) (e_health e) (e_mesh_health e) (e_points e).

(** The inner loop over the projectiles, given from the last index down.
    It returns the projectiles that stay (same order), the enemy with its
    health after the hits, and whether it was destroyed; the loop breaks
    at the destroying hit. *)
Fixpoint projectileLoop (fromLast : list Projectile) (enemy : Enemy)
  : list Projectile * Enemy * bool :=
  match fromLast with
  | [] => ([], enemy, false)
  | projectile :: rest =>
      if checkCollision (p_position projectile) (e_position enemy) 0.2 0.8 then
        let '(enemy', destroyed) := takeDamage (p_damage projectile) enemy in
        if destroyed then (rest, enemy', true)
        else projectileLoop rest enemy'
      else
        let '(rest', enemy', destroyed) := projectileLoop rest enemy in
        (projectile :: rest', enemy', destroyed)
  end.

(** The body of the loop over the enemies for one enemy: the state after
    it and the enemy if it stays in the array.  The three tests come in
    the order of the source: bottom edge, collision with the player,
    collisions with the projectiles.  The position of the ship mesh is the
    player's position, copied there by [updatePosition] earlier in the
    same [updateGame]. *)
Definition updateEnemy (r : Render) (deltaTime : Q) (enemy : Enemy) (st : State)
  : State * option Enemy :=
  let enemy := moveEnemy deltaTime enemy in
  if Qlt_bool (vy (e_position enemy)) (-15) then
    let st :=
      if negb (r_gameOver r)
      then damagePlayer r (bottomDamage (difficulty (r_settings r))) st
      else st in
    (st, None)
  else if negb (isInvincible (playerRef st)) && negb (r_gameOver r)
          && checkCollision (e_position enemy) (position (playerRef st)) 1.0 1.5 then
    (damagePlayer r (collisionDamage (difficulty (r_settings r))) st, None)
  else
    let '(fromLast, enemy, destroyed) := projectileLoop (rev (projectilesRef st)) enemy in
    let st := with_projectiles (rev fromLast) st in
    if destroyed then
      let '(explosion, st) := createExplosion (e_position enemy) st in
      let st := with_effects (effectsRef st ++ [explosion]) st in
      let st := setScore (fun prev => prev + e_points enemy) st in
      let st :=
        with_persistence (GameSlice.incrementScore (e_points enemy) (redux st))
          (localStorage st) (highScoreCalls st) st in
      (st, None)
    else (st, Some enemy).

(** The loop over the enemies, given from the last index down; [kept]
    collects, in array order, the enemies that stay. *)
Fixpoint enemyLoop (r : Render) (deltaTime : Q) (fromLast kept : list Enemy)
  (st : State) : State * list Enemy :=
  match fromLast with
  | [] => (st, kept)
  | enemy :: rest =>
      let '(st, stays) := updateEnemy r deltaTime enemy st in
      enemyLoop r deltaTime rest
        (match stays with Some e => e :: kept | None => kept end) st
  end.

Definition updateEnemies (r : Render) (deltaTime : Q) (st : State) : State :=
  let '(st, kept) := enemyLoop r deltaTime (rev (enemiesRef st)) [] st in
  with_enemies kept st.

(** ** updateGame and the animation loop *)

Definition updateGame (r : Render) (deltaTime : Q) (st : State) : State :=
  let st := updateGame_move r deltaTime st in
  let st := updateGame_fire r st in
  let st := updateProjectiles deltaTime st in
  let st := updateEnemies r deltaTime st in
  updateEffects deltaTime st.

(** [animate(time)] of the [startGame] of render [r]. *)
Definition animate (r : Render) (time : Q) (st : State) : State :=
  let previous := match previousTimeRef st with Some t => t | None => time end in
  let deltaTime := Qmin (Qred ((time - previous) / 1000)) 0.1 in
  let st := with_previousTime (Some time) st in
  let st := if negb (r_isPaused r) then updateGame r deltaTime st else st in
  requestAnimationFrame r st.

(** [applyDirectDamage(damage)], behind the debug button. *)
Definition applyDirectDamage (r : Render) (damage : Z) (st : State) : State :=
  if r_gameOver r then st else damagePlayer r damage st.

(** ** Keyboard *)

Definition setKey (k : Key) (b : bool) (keys : Keys) : Keys :=
  match k with
  | Kw => mkKeys b (key_a keys) (key_s keys) (key_d keys) (key_space keys) (key_q keys) (key_e keys)
  | Ka => mkKeys (key_w keys) b (key_s keys) (key_d keys) (key_space keys) (key_q keys) (key_e keys)
  | Ks => mkKeys (key_w keys) (key_a keys) b (key_d keys) (key_space keys) (key_q keys) (key_e keys)
  | Kd => mkKeys (key_w keys) (key_a keys) (key_s keys) b (key_space keys) (key_q keys) (key_e keys)
  | Kspace => mkKeys (key_w keys) (key_a keys) (key_s keys) (key_d keys) b (key_q keys) (key_e keys)
  | Kq => mkKeys (key_w keys) (key_a keys) (key_s keys) (key_d keys) (key_space keys) b (key_e keys)
  | Ke => mkKeys (key_w keys) (key_a keys) (key_s keys) (key_d keys) (key_space keys) (key_q keys) b
  | Kescape | Kother => keys
  end.

Definition handleKeyDown (r : Render) (k : Key) (st : State) : State :=
  let st := with_keys (setKey k true (keysRef st)) st in
  let st :=
    match k with
    | Kq => rotatePlayer r 1 st
    | Ke => rotatePlayer r (-1) st
    | _ => st
    end in
  match k with
  | Kescape => setIsPaused negb st
  | _ => st
  end.

Definition handleKeyUp (k : Key) (st : State) : State :=
  with_keys (setKey k false (keysRef st)) st.

(** ** Mounting *)

Definition noKeys : Keys := mkKeys false false false false false false false.

Definition origin : Vector3 := mkVector3 0 0 0.

(** The state of the first render: the initial values of the hooks and
    refs, with the surroundings found at that moment. *)
Definition firstState (s : Settings) (now : Z) (randoms : list Q)
  (g : GameSlice.GameState) (ls : GameStorage.LocalStorage) : State :=
  mkState s (mkHooks 0 false 100 3 false)
    (mkPlayerRef origin (mkEuler 0 0 0) origin 0 false)
    [] [] [] noKeys None
    (mkBrowser now [] None None None randoms)
    g ls [].

(** The two effects with an empty dependency list: they run once, after
    the first render, with the functions of that render. *)
Definition mount (s : Settings) (now : Z) (randoms : list Q)
  (g : GameSlice.GameState) (ls : GameStorage.LocalStorage) : State :=
  let st := firstState s now randoms g ls in
  let r := currentRender st in
  let st := startGame r st in
  let st :=
    with_persistence (redux st)
      (GameStorage.incrementGamesPlayed (clock (browser st)) (localStorage st))
      (highScoreCalls st) st in
  addKeyListeners r st.

(** ** The event loop *)

Definition runCallback (cb : Callback) (st : State) : State :=
  match cb with
  | cb_endGame r => endGame r st
  | cb_restoreHealth => setPlayerHealth (fun _ => 100) st
  | cb_clearInvincible => set_isInvincible false st
  end.

(** Insertion by due time, after the entries that are due no later. *)
Fixpoint insertByDue (t : Z * Callback) (l : list (Z * Callback)) : list (Z * Callback) :=
  match l with
  | [] => [t]
  | u :: rest => if fst u <=? fst t then u :: insertByDue t rest else t :: u :: rest
  end.

Definition sortByDue (l : list (Z * Callback)) : list (Z * Callback) :=
  fold_left (fun acc t => insertByDue t acc) l [].

(** [ms] milliseconds pass: the timeouts that fall due run in the order of
    their due times, each at its due time; none of the callbacks registers
    a timeout. *)
Definition elapse (ms : Z) (st : State) : State :=
  let target := clock (browser st) + ms in
  let due := filter (fun t => fst t <=? target) (timeouts (browser st)) in
  let later := filter (fun t => negb (fst t <=? target)) (timeouts (browser st)) in
  let st := set_timeouts later st in
  let st :=
    fold_left
      (fun s t => runCallback (snd t) (set_clock (Z.max (clock (browser s)) (fst t)) s))
      (sortByDue due) st in
  set_clock (Z.max (clock (browser st)) target) st.

(** What can happen to a mounted view. *)
Inductive Event :=
| ev_elapse (ms : Z)
| ev_frame
| ev_spawnTimer
| ev_keydown (k : Key)
| ev_keyup (k : Key)
| ev_clickTakeDamage
| ev_clickResume.

(** The frame and timer callbacks are the ones registered earlier, with
    the render they were created in; the click handlers are those of the
    latest render. *)
Definition step (ev : Event) (st : State) : State :=
  match ev with
  | ev_elapse ms => elapse ms st
  | ev_frame =>
      match animation (browser st) with
      | Some r => animate r (inject_Z (clock (browser st))) st
      | None => st
      end
  | ev_spawnTimer =>
      match spawnTimer (browser st) with
      | Some (_, r) => enemySpawnTimer r st
      | None => st
      end
  | ev_keydown k =>
      match keyListener (browser st) with
      | Some r => handleKeyDown r k st
      | None => st
      end
  | ev_keyup k =>
      match keyListener (browser st) with
      | Some _ => handleKeyUp k st
      | None => st
      end
  | ev_clickTakeDamage => applyDirectDamage (currentRender st) 10 st
  | ev_clickResume => setIsPaused (fun _ => false) st
  end.

Definition run (evs : list Event) (st : State) : State :=
  fold_left (fun s ev => step ev s) evs st.

End GameView.

(* ================================================================== *)
(** * An executable numeric library *)
(* ================================================================== *)

(** A fixed-precision reading of the numeric functions, to run the view on
    concrete inputs: square roots to six decimals (exact on squares of
    such numbers), sines and cosines by their series up to the seventh
    power. *)

Definition sqrt_fixed (q : Q) : Q :=
  Qmake (Z.sqrt (Qnum q * 1000000000000 / Zpos (Qden q))) 1000000.

Definition sin_fixed (t : Q) : Q :=
  Qred (t - t * t * t / 6 + t * t * t * t * t / 120
        - t * t * t * t * t * t * t / 5040)%Q.

Definition cos_fixed (t : Q) : Q :=
  Qred (1 - t * t / 2 + t * t * t * t / 24 - t * t * t * t * t * t / 720)%Q.

Definition length_fixed (v : Vector3) : Q :=
  sqrt_fixed (vx v * vx v + vy v * vy v + vz v * vz v)%Q.

(** [v.normalize()] is [v.divideScalar(v.length() || 1)]. *)
Definition normalize_fixed (v : Vector3) : Vector3 :=
  let l := length_fixed v in
  let l := if Qeq_bool l 0 then 1%Q else l in
  mkVector3 (Qred (vx v / l)) (Qred (vy v / l)) (Qred (vz v / l)).

Definition distanceTo_fixed (v w : Vector3) : Q :=
  length_fixed (mkVector3 (vx v - vx w) (vy v - vy w) (vz v - vz w))%Q.

(** The rotation matrix of an Euler triple in XYZ order, applied to [v]. *)
Definition applyEuler_fixed (v : Vector3) (eu : Euler) : Vector3 :=
  let a := cos_fixed (ex eu) in
  let b := sin_fixed (ex eu) in
  let c := cos_fixed (ey eu) in
  let d := sin_fixed (ey eu) in
  let e := cos_fixed (ez eu) in
  let f := sin_fixed (ez eu) in
  (mkVector3
     (Qred (c * e * vx v - c * f * vy v + d * vz v))
     (Qred ((a * f + b * e * d) * vx v + (a * e - b * f * d) * vy v - b * c * vz v))
     (Qred ((b * f - a * e * d) * vx v + (b * e + a * f * d) * vy v + a * c * vz v)))%Q.

Definition three_fixed : Three :=
  mkThree sqrt_fixed applyEuler_fixed normalize_fixed distanceTo_fixed.

(* ================================================================== *)
(** * Sample sessions *)
(* ================================================================== *)

(** The settings of [settingsSlice.initialState], at a chosen difficulty. *)
Definition storeSettings (d : Difficulty) : Settings :=
  mkSettings 5 0.05 10 1 3 1.5 d.

(** A freshly mounted view: clock at 1000000 ms, empty storage, and a
    random supply that puts every enemy at x = 8, clear of a ship that
    stays at the origin. *)
Definition mounted (d : Difficulty) : State :=
  mount (storeSettings d) 1000000 (repeat 0.9%Q 256)
    (GameSlice.initialState GameStorage.emptyStorage) GameStorage.emptyStorage.

(** The render whose closures the animation loop, the spawn interval and
    the key listeners run: the first one. *)
Definition firstRender (d : Difficulty) : Render :=
  mkRender (storeSettings d) 0 false false.

Fixpoint times {A : Type} (n : nat) (l : list A) : list A :=
  match n with
  | O => []
  | S n' => l ++ times n' l
  end.

(** A tenth of a second passes and a frame is drawn. *)
Definition tick : list Event := [ev_elapse 100; ev_frame].

(** Two seconds of frames at medium difficulty, closed by the spawn timer. *)
Definition spawnPeriod : list Event := times 20 tick ++ [ev_spawnTimer].

(** A session in which the player never touches the keyboard: the enemies
    walk to the bottom edge one after the other.  It stops just before
    the frame in which the first enemy after the game-over crosses the
    edge. *)
Definition idleSession : list Event :=
  times 24 spawnPeriod ++ times 15 tick ++ [ev_elapse 100].

Definition afterGameOver : State := run (three := three_fixed) idleSession (mounted medium).

(** A session with one kill.  The player moves right until the ship is
    under the lane of the enemies, holds fire until the first enemy is
    destroyed (100 points), lets go, and is then rammed by the enemies
    that follow, 30 damage each time.  The session stops on the last life
    with health 10, just before the frame of the next collision. *)
Definition shootingSession : list Event :=
  [ev_keydown Kd] ++ times 28 tick ++ [ev_keyup Kd; ev_keydown Kspace]
  ++ times 2 spawnPeriod ++ [ev_keyup Kspace]
  ++ times 15 spawnPeriod ++ times 7 tick ++ [ev_elapse 100].

Definition onLastLife : State :=
  run (three := three_fixed) shootingSession (mounted medium).

(** The session goes on: the collision ends the game, and the player
    holds the fire key again.  It stops just before the frame in which a
    shot destroys the next enemy. *)
Definition firingAfterGameOver : State :=
  run (three := three_fixed)
    ([ev_frame; ev_elapse 100; ev_frame; ev_keydown Kspace]
     ++ times 37 tick ++ [ev_elapse 100])
    onLastLife.

(** A player with health 20 and two lives. *)
Definition secondLife : State :=
  with_hooks (mkHooks 0 false 20 2 false) (mounted medium).

(** The player holds the fire key 200 ms after the last shot. *)
Definition holdingFire : State :=
  set_clock 1000200
    (set_lastFireTime 1000000
       (with_keys (setKey Kspace true noKeys) (mounted medium))).

(** An enemy one step above the bottom edge, with health 1 left and worth
    100 points, and a projectile of damage 1 that reaches the very place
    of the enemy in the next tenth of a second. *)
Definition doomedEnemy : Enemy :=
  mkEnemy (mkVector3 8 (-149 # 10) 0) (mkVector3 0 (-2) 0) 10 1 100.

Definition shot : Projectile :=
  mkProjectile (mkVector3 8 (-161 # 10) 0) (mkVector3 0 10 0) 1 1500.

Definition atTheEdge : State :=
  with_projectiles [shot] (with_enemies [doomedEnemy] (mounted medium)).

(* ================================================================== *)
(** * What every step keeps *)
(* ================================================================== *)

Definition healthInRange (st : State) : Prop :=
  0 <= playerHealth (hooks st) <= 100.

(** [st'] comes after [st]: the registered loops and the settings are the
    same, a game that was over is still over, and health that was within
    0..100 still is. *)
Definition follows (st st' : State) : Prop :=
  spawnTimer (browser st') = spawnTimer (browser st)
  /\ animation (browser st') = animation (browser st)
  /\ keyListener (browser st') = keyListener (browser st)
  /\ settings st' = settings st
  /\ (gameOver (hooks st) = true -> gameOver (hooks st') = true)
  /\ (healthInRange st -> healthInRange st').

(* ================================================================== *)
(** * Physics helpers (second part of handlers/InputHandler.ts) *)
(* ================================================================== *)

Module Physics.

(** [GAME_BOUNDS] *)
Definition x_min : Q := -15.
Definition x_max : Q := 15.
Definition y_min : Q := -20.
Definition y_max : Q := 20.
Definition z_min : Q := -5.
Definition z_max : Q := 5.


(** [applyDrag(velocity, dragFactor = 0.95)] *)
Definition applyDrag (velocity : Vector3) (dragFactor : option Q) : Vector3 :=
  let dragFactor := GameStorage.orElse dragFactor 0.95%Q in
  (mkVector3 (vx velocity * dragFactor) (vy velocity * dragFactor)
             (vz velocity * dragFactor))%Q.

(** [enforceWorldBounds(position)] *)
Definition enforceWorldBounds (position : Vector3) : Vector3 :=
  mkVector3 (Qmax x_min (Qmin x_max (vx position)))
            (Qmax y_min (Qmin y_max (vy position)))
            (Qmax z_min (Qmin z_max (vz position))).

(** [isOutOfBounds(position, margin = 5)] *)
Definition isOutOfBounds (position : Vector3) (margin : option Q) : bool :=
  let margin := GameStorage.orElse margin 5%Q in
  Qlt_bool (vx position) (x_min - margin)
  || Qlt_bool (x_max + margin) (vx position)
  || Qlt_bool (vy position) (y_min - margin)
  || Qlt_bool (y_max + margin) (vy position)
  || Qlt_bool (vz position) (z_min - margin)
  || Qlt_bool (z_max + margin) (vz position).

(** The [speedSquared] of [isStopped]. *)
Definition speedSquared (velocity : Vector3) : Q :=
  (vx velocity * vx velocity + vy velocity * vy velocity
   + vz velocity * vz velocity)%Q.

(** [isStopped(velocity, threshold = 0.01)] *)
Definition isStopped (velocity : Vector3) (threshold : option Q) : bool :=
  let threshold := GameStorage.orElse threshold 0.01%Q in
  Qlt_bool (speedSquared velocity) (threshold * threshold).

(** [calculateVelocity(direction, thrust)] *)
Definition calculateVelocity {three : Three} (direction : Vector3) (thrust : Q) : Vector3 :=
  let length :=
    Math_sqrt (vx direction * vx direction + vy direction * vy direction
               + vz direction * vz direction) in
  if Qeq_bool length 0 then mkVector3 0 0 0
  else
    let normalized :=
      (mkVector3 (vx direction / length) (vy direction / length)
                 (vz direction / length))%Q in
    (mkVector3 (vx normalized * thrust) (vy normalized * thrust)
               (vz normalized * thrust))%Q.

(** [randomizePosition(basePosition, range)]: three draws, for x, y, z. *)
Definition randomizePosition (basePosition range : Vector3) (st : State)
  : Vector3 * State :=
  let '(r1, st) := Math_random st in
  let '(r2, st) := Math_random st in
  let '(r3, st) := Math_random st in
  ((mkVector3 (vx basePosition + (r1 * 2 - 1) * vx range)
              (vy basePosition + (r2 * 2 - 1) * vy range)
              (vz basePosition + (r3 * 2 - 1) * vz range))%Q, st).

End Physics.

(* ================================================================== *)
(** * Key records *)
(* ================================================================== *)

(** A JavaScript object used as a record of flags, [Record<string, boolean>]:
    the keys in insertion order with their values. *)
Module KeyRecord.

Definition t := list (string * bool).

(** [keys[k]]: [None] is [undefined]. *)
Fixpoint get (k : string) (keys : t) : option bool :=
  match keys with
  | [] => None
  | (k', v) :: rest => if String.eqb k' k then Some v else get k rest
  end.

(** [keys.hasOwnProperty(k)] *)
Definition has (k : string) (keys : t) : bool :=
  match get k keys with Some _ => true | None => false end.

(** The names every object literal inherits from [Object.prototype]. *)
Definition inherited : list string :=
  ["constructor"; "__defineGetter__"; "__defineSetter__"; "hasOwnProperty";
   "__lookupGetter__"; "__lookupSetter__"; "isPrototypeOf";
   "propertyIsEnumerable"; "toString"; "valueOf"; "__proto__";
   "toLocaleString"]%string.

(** [k in keys]: an own property or an inherited one. *)
Definition inObject (k : string) (keys : t) : bool :=
  has k keys || existsb (String.eqb k) inherited.

(** Truthiness of [keys[k]]. *)
Definition pressed (k : string) (keys : t) : bool :=
  match get k keys with Some true => true | _ => false end.

(** [{ ...keys, [k]: v }]: an existing key keeps its place. *)
Fixpoint set (k : string) (v : bool) (keys : t) : t :=
  match keys with
  | [] => [(k, v)]
  | (k', v') :: rest =>
      if String.eqb k' k then (k', v) :: rest else (k', v') :: set k v rest
  end.

End KeyRecord.

(* ================================================================== *)
(** * handlers/InputHandler.ts *)
(* ================================================================== *)

Module InputHandler.

(** [processMovementKeys(keys)] *)
Definition processMovementKeys {three : Three} (keys : KeyRecord.t) : Vector3 :=
  let y := (0 + (if KeyRecord.pressed "w"%string keys then 1 else 0)
            - (if KeyRecord.pressed "s"%string keys then 1 else 0))%Q in
  let x := (0 - (if KeyRecord.pressed "a"%string keys then 1 else 0)
            + (if KeyRecord.pressed "d"%string keys then 1 else 0))%Q in
  let z := 0%Q in
  if negb (Qeq_bool x 0) && negb (Qeq_bool y 0) then
    let length := Math_sqrt (x * x + y * y) in
    mkVector3 (x / length) (y / length) z
  else mkVector3 x y z.

(** [processRotationKeys(keys)] *)
Definition processRotationKeys (keys : KeyRecord.t) : Vector3 :=
  let z := (0 + (if KeyRecord.pressed "q"%string keys then 1 else 0)
            - (if KeyRecord.pressed "e"%string keys then 1 else 0))%Q in
  mkVector3 0 0 z.

(** [isFirePressed(keys)]: the value stored under the space key. *)
Definition isFirePressed (keys : KeyRecord.t) : option bool := KeyRecord.get " "%string keys.

(** [isPausePressed(keys)] *)
Definition isPausePressed (keys : KeyRecord.t) : option bool := KeyRecord.get "Escape"%string keys.

(** [processTouchInput(touchX, touchY, screenWidth, screenHeight)] *)
Definition processTouchInput (touchX touchY screenWidth screenHeight : Q) : Vector3 :=
  let x := (touchX / screenWidth * 2 - 1)%Q in
  let y := (touchY / screenHeight * 2 - 1)%Q in
  mkVector3 x y 0.

End InputHandler.

(* ================================================================== *)
(** * hooks/useKeyboard.ts *)
(* ================================================================== *)

Module UseKeyboard.

(** The initial value of the [keys] state. *)
Definition initialKeys : KeyRecord.t :=
  [("w"%string, false); ("a"%string, false); ("s"%string, false);
   ("d"%string, false); (" "%string, false); ("Escape"%string, false)].

(** [toLowerCase] on the letters A to Z. *)
Definition lowerAscii (c : Ascii.ascii) : Ascii.ascii :=
  let n := Ascii.nat_of_ascii c in
  if (Nat.leb 65 n && Nat.leb n 90)%bool then Ascii.ascii_of_nat (n + 32) else c.

Fixpoint toLowerCase (s : string) : string :=
  match s with
  | EmptyString => EmptyString
  | String c rest => String (lowerAscii c) (toLowerCase rest)
  end.

(** The test of both handlers; [keysRef.current] is the [keys] of the
    latest render, which has the same keys as the state. *)
Definition isGameKey (key : string) (keys : KeyRecord.t) : bool :=
  KeyRecord.inObject key keys
  || (String.eqb key " "%string && KeyRecord.inObject " "%string keys).

(** [handleKeyDown(e)], with [e.key]. *)
Definition handleKeyDown (e_key : string) (keys : KeyRecord.t) : KeyRecord.t :=
  let key := toLowerCase e_key in
  if isGameKey key keys
  then KeyRecord.set (if String.eqb key " "%string then " "%string else key) true keys
  else keys.

(** [handleKeyUp(e)] *)
Definition handleKeyUp (e_key : string) (keys : KeyRecord.t) : KeyRecord.t :=
  let key := toLowerCase e_key in
  if isGameKey key keys
  then KeyRecord.set (if String.eqb key " "%string then " "%string else key) false keys
  else keys.

Inductive KeyEvent := keydown (e_key : string) | keyup (e_key : string).

Definition handle (ev : KeyEvent) (keys : KeyRecord.t) : KeyRecord.t :=
  match ev with
  | keydown k => handleKeyDown k keys
  | keyup k => handleKeyUp k keys
  end.

(** The [keys] the hook returns after a sequence of key events. *)
Definition useKeyboard (evs : list KeyEvent) : KeyRecord.t :=
  fold_left (fun keys ev => handle ev keys) evs initialKeys.

End UseKeyboard.

(* ================================================================== *)
(** * store/gameSlice.ts, the whole slice *)
(* ================================================================== *)

Module Store.

(** [interface Projectile extends Entity] *)
Record Projectile := mkProjectile {
  pj_id : string;
  pj_position : Vector3;
  pj_rotation : Vector3;
  pj_velocity : Vector3;
  pj_active : bool;
  pj_owner : string;
  pj_damage : Q;
  pj_lifetime : Q;
  pj_rate : Q
}.

(** [interface Enemy extends Entity] *)
Record Enemy := mkEnemy {
  en_id : string;
  en_position : Vector3;
  en_rotation : Vector3;
  en_velocity : Vector3;
  en_active : bool;
  en_health : Q;
  en_points : Z;
  en_type : string
}.

(** [interface Player extends Entity] *)
Record Player := mkPlayer {
  pl_id : string;
  pl_position : Vector3;
  pl_rotation : Vector3;
  pl_velocity : Vector3;
  pl_active : bool;
  pl_health : Q;
  pl_lives : Z;
  pl_score : Z
}.

(** [Partial<Player>] *)
Record PartialPlayer := mkPartialPlayer {
  pp_id : option string;
  pp_position : option Vector3;
  pp_rotation : option Vector3;
  pp_velocity : option Vector3;
  pp_active : option bool;
  pp_health : option Q;
  pp_lives : option Z;
  pp_score : option Z
}.

Definition noChange : PartialPlayer :=
  mkPartialPlayer None None None None None None None None.

(** A whole player as a partial one. *)
Definition allOf (p : Player) : PartialPlayer :=
  mkPartialPlayer (Some (pl_id p)) (Some (pl_position p)) (Some (pl_rotation p))
    (Some (pl_velocity p)) (Some (pl_active p)) (Some (pl_health p))
    (Some (pl_lives p)) (Some (pl_score p)).

Record GameState := mkGameState {
  isRunning : bool;
  isPaused : bool;
  level : Z;
  player : Player;
  enemies : list Enemy;
  projectiles : list Projectile;
  score : Z;
  highScore : Z;
  gameOver : bool
}.

Definition zero : Vector3 := mkVector3 0 0 0.

(** [initialState.player] *)
Definition initialPlayer : Player :=
  mkPlayer "player" zero zero zero true 100 3 0.

Definition initialState (ls : GameStorage.LocalStorage) : GameState :=
  mkGameState false false 1 initialPlayer [] [] 0
    (GameStorage.orElse (GameStorage.item_highScore ls) 0) false.

Definition startGame (state : GameState) : GameState :=
  mkGameState true false 1 initialPlayer [] [] 0 (highScore state) false.

Definition pauseGame (state : GameState) : GameState :=
  mkGameState (isRunning state) true (level state) (player state) (enemies state)
    (projectiles state) (score state) (highScore state) (gameOver state).

Definition resumeGame (state : GameState) : GameState :=
  mkGameState (isRunning state) false (level state) (player state) (enemies state)
    (projectiles state) (score state) (highScore state) (gameOver state).

(** Reducer [endGame], with the write to the ['highScore'] item. *)
Definition endGame (state : GameState) (ls : GameStorage.LocalStorage)
  : GameState * GameStorage.LocalStorage :=
  if highScore state <? score state then
    (mkGameState false (isPaused state) (level state) (player state) (enemies state)
       (projectiles state) (score state) (score state) true,
     GameStorage.mkLocalStorage (GameStorage.item_data ls) (Some (score state)))
  else
    (mkGameState false (isPaused state) (level state) (player state) (enemies state)
       (projectiles state) (score state) (highScore state) true,
     ls).

(** [{ ...state.player, ...action.payload }] *)
Definition mergePlayer (p : Player) (payload : PartialPlayer) : Player :=
  mkPlayer (GameStorage.orElse (pp_id payload) (pl_id p))
    (GameStorage.orElse (pp_position payload) (pl_position p))
    (GameStorage.orElse (pp_rotation payload) (pl_rotation p))
    (GameStorage.orElse (pp_velocity payload) (pl_velocity p))
    (GameStorage.orElse (pp_active payload) (pl_active p))
    (GameStorage.orElse (pp_health payload) (pl_health p))
    (GameStorage.orElse (pp_lives payload) (pl_lives p))
    (GameStorage.orElse (pp_score payload) (pl_score p)).

Definition with_player (p : Player) (state : GameState) : GameState :=
  mkGameState (isRunning state) (isPaused state) (level state) p (enemies state)
    (projectiles state) (score state) (highScore state) (gameOver state).

Definition with_projectiles (l : list Projectile) (state : GameState) : GameState :=
  mkGameState (isRunning state) (isPaused state) (level state) (player state)
    (enemies state) l (score state) (highScore state) (gameOver state).

Definition with_enemies (l : list Enemy) (state : GameState) : GameState :=
  mkGameState (isRunning state) (isPaused state) (level state) (player state) l
    (projectiles state) (score state) (highScore state) (gameOver state).

Definition updatePlayer (payload : PartialPlayer) (state : GameState) : GameState :=
  with_player (mergePlayer (player state) payload) state.

Definition addProjectile (payload : Projectile) (state : GameState) : GameState :=
  with_projectiles (projectiles state ++ [payload]) state.

Definition removeProjectile (payload : string) (state : GameState) : GameState :=
  with_projectiles
    (filter (fun p => negb (String.eqb (pj_id p) payload)) (projectiles state)) state.

Definition updateProjectiles (payload : list Projectile) (state : GameState) : GameState :=
  with_projectiles payload state.

Definition addEnemy (payload : Enemy) (state : GameState) : GameState :=
  with_enemies (enemies state ++ [payload]) state.

Definition removeEnemy (payload : string) (state : GameState) : GameState :=
  with_enemies
    (filter (fun e => negb (String.eqb (en_id e) payload)) (enemies state)) state.

Definition updateEnemies (payload : list Enemy) (state : GameState) : GameState :=
  with_enemies payload state.

Definition incrementScore (payload : Z) (state : GameState) : GameState :=
  mkGameState (isRunning state) (isPaused state) (level state) (player state)
    (enemies state) (projectiles state) (score state + payload) (highScore state)
    (gameOver state).

Definition nextLevel (state : GameState) : GameState :=
  mkGameState (isRunning state) (isPaused state) (level state + 1) (player state)
    (enemies state) (projectiles state) (score state) (highScore state)
    (gameOver state).

(** The actions of the slice. *)
Inductive Action :=
| a_startGame
| a_pauseGame
| a_resumeGame
| a_endGame
| a_updatePlayer (payload : PartialPlayer)
| a_addProjectile (payload : Projectile)
| a_removeProjectile (payload : string)
| a_updateProjectiles (payload : list Projectile)
| a_addEnemy (payload : Enemy)
| a_removeEnemy (payload : string)
| a_updateEnemies (payload : list Enemy)
| a_incrementScore (payload : Z)
| a_nextLevel.

(** [dispatch(action)] on the store and the local storage. *)
Definition dispatch (a : Action) (s : GameState * GameStorage.LocalStorage)
  : GameState * GameStorage.LocalStorage :=
  let (state, ls) := s in
  match a with
  | a_startGame => (startGame state, ls)
  | a_pauseGame => (pauseGame state, ls)
  | a_resumeGame => (resumeGame state, ls)
  | a_endGame => endGame state ls
  | a_updatePlayer p => (updatePlayer p state, ls)
  | a_addProjectile p => (addProjectile p state, ls)
  | a_removeProjectile i => (removeProjectile i state, ls)
  | a_updateProjectiles l => (updateProjectiles l state, ls)
  | a_addEnemy e => (addEnemy e state, ls)
  | a_removeEnemy i => (removeEnemy i state, ls)
  | a_updateEnemies l => (updateEnemies l state, ls)
  | a_incrementScore n => (incrementScore n state, ls)
  | a_nextLevel => (nextLevel state, ls)
  end.

Definition dispatchAll (actions : list Action) (s : GameState * GameStorage.LocalStorage)
  : GameState * GameStorage.LocalStorage :=
  fold_left (fun s a => dispatch a s) actions s.

End Store.

(* ================================================================== *)
(** * handlers/CollisionHandler.ts *)
(* ================================================================== *)

Module CollisionHandler.

Inductive CollisionShape := SPHERE | BOX.

(** [CollisionSphere | CollisionBox] *)
Inductive Dimensions :=
| sphereDims (radius : Q)
| boxDims (width height depth : Q).

Record CollisionObject := mkCollisionObject {
  co_position : Vector3;
  co_shape : CollisionShape;
  co_dimensions : Dimensions
}.

Definition createCollisionSphere (position : Vector3) (radius : Q) : CollisionObject :=
  mkCollisionObject position SPHERE (sphereDims radius).

Definition createCollisionBox (position : Vector3) (width height depth : Q)
  : CollisionObject :=
  mkCollisionObject position BOX (boxDims width height depth).

Definition isSphere (o : CollisionObject) : bool :=
  match co_shape o with SPHERE => true | BOX => false end.

Definition isBox (o : CollisionObject) : bool :=
  match co_shape o with BOX => true | SPHERE => false end.

Section WithThree.

Context {three : Three}.

(** [getDistance(p1, p2)]; [Math.pow(d, 2)] is [d * d]. *)
Definition getDistance (p1 p2 : Vector3) : Q :=
  Math_sqrt ((vx p2 - vx p1) * (vx p2 - vx p1)
             + (vy p2 - vy p1) * (vy p2 - vy p1)
             + (vz p2 - vz p1) * (vz p2 - vz p1)).

(** [sphereToSphereCollision]; a comparison with a missing [radius] is
    false. *)
Definition sphereToSphereCollision (sphere1 sphere2 : CollisionObject) : bool :=
  if negb (isSphere sphere1) || negb (isSphere sphere2) then false
  else
    match co_dimensions sphere1, co_dimensions sphere2 with
    | sphereDims r1, sphereDims r2 =>
        let distance := getDistance (co_position sphere1) (co_position sphere2) in
        Qlt_bool distance (r1 + r2)
    | _, _ => false
    end.

(** [sphereToBoxCollision] *)
Definition sphereToBoxCollision (sphere box : CollisionObject) : bool :=
  if negb (isSphere sphere) || negb (isBox box) then false
  else
    match co_dimensions sphere, co_dimensions box with
    | sphereDims radius, boxDims width height depth =>
        let halfWidth := (width / 2)%Q in
        let halfHeight := (height / 2)%Q in
        let halfDepth := (depth / 2)%Q in
        let s := co_position sphere in
        let b := co_position box in
        let closestX := Qmax (vx b - halfWidth) (Qmin (vx s) (vx b + halfWidth)) in
        let closestY := Qmax (vy b - halfHeight) (Qmin (vy s) (vy b + halfHeight)) in
        let closestZ := Qmax (vz b - halfDepth) (Qmin (vz s) (vz b + halfDepth)) in
        let distance := getDistance (mkVector3 closestX closestY closestZ) s in
        Qlt_bool distance radius
    | _, _ => false
    end.

Definition checkProjectileEnemyCollision (projectile : Store.Projectile)
  (enemy : Store.Enemy) : bool :=
  let projectileCollider := createCollisionSphere (Store.pj_position projectile) 0.2 in
  let enemyCollider := createCollisionSphere (Store.en_position enemy) 0.8 in
  sphereToSphereCollision projectileCollider enemyCollider.

Definition checkPlayerEnemyCollision (player : Store.Player) (enemy : Store.Enemy)
  : bool :=
  let playerCollider := createCollisionSphere (Store.pl_position player) 1.0 in
  let enemyCollider := createCollisionSphere (Store.en_position enemy) 0.8 in
  sphereToSphereCollision playerCollider enemyCollider.

(** [isPointInSphere(point, sphereCenter, radius)] *)
Definition isPointInSphere (point sphereCenter : Vector3) (radius : Q) : bool :=
  Qle_bool (getDistance point sphereCenter) radius.

(** [array.forEach(f)] for an [f] that pushes onto the result. *)
Definition forEach {A B : Type} (l : list A) (f : A -> list B -> list B)
  (collisions : list B) : list B :=
  fold_left (fun acc a => f a acc) l collisions.

(** [checkAllCollisions(player, projectiles, enemies)] *)
Definition checkAllCollisions (player : Store.Player)
  (projectiles : list Store.Projectile) (enemies : list Store.Enemy)
  : list (option Store.Projectile * Store.Enemy) :=
  let collisions := [] in
  let collisions :=
    forEach enemies
      (fun enemy collisions =>
         if checkPlayerEnemyCollision player enemy
         then collisions ++ [(None, enemy)] else collisions)
      collisions in
  forEach projectiles
    (fun projectile collisions =>
       if negb (String.eqb (Store.pj_owner projectile) "player") then collisions
       else
         forEach enemies
           (fun enemy collisions =>
              if checkProjectileEnemyCollision projectile enemy
              then collisions ++ [(Some projectile, enemy)] else collisions)
           collisions)
    collisions.

End WithThree.

End CollisionHandler.

(* ================================================================== *)
(** * context/GameContext.tsx *)
(* ================================================================== *)

(** The callbacks of the provider read [gameState] and the settings of
    the render that created them and dispatch actions; each is given here
    by the actions it dispatches, in order. *)
Module GameContext.

Section WithThree.

Context {three : Three}.

(** [movePlayer({x, y, z})], absent components being 0. *)
Definition movePlayer (s : Settings) (x y z : option Q) : list Store.Action :=
  let x := GameStorage.orElse x 0%Q in
  let y := GameStorage.orElse y 0%Q in
  let z := GameStorage.orElse z 0%Q in
  let newVelocity := (mkVector3 (x * shipSpeed s) (y * shipSpeed s) (z * shipSpeed s))%Q in
  [Store.a_updatePlayer
     (Store.mkPartialPlayer None None None (Some newVelocity) None None None None)].

(** [rotatePlayer({x, y, z})] *)
Definition rotatePlayer (s : Settings) (gameState : Store.GameState)
  (x y z : option Q) : list Store.Action :=
  let x := GameStorage.orElse x 0%Q in
  let y := GameStorage.orElse y 0%Q in
  let z := GameStorage.orElse z 0%Q in
  let r := Store.pl_rotation (Store.player gameState) in
  let rotation :=
    (mkVector3 (vx r + x * shipTorque s) (vy r + y * shipTorque s)
               (vz r + z * shipTorque s))%Q in
  [Store.a_updatePlayer
     (Store.mkPartialPlayer None None (Some rotation) None None None None None)].

(** [fireProjectile()]; [id] is what [uuidv4()] returns. *)
Definition fireProjectile (s : Settings) (gameState : Store.GameState) (id : string)
  : list Store.Action :=
  let p := Store.player gameState in
  let r := Store.pl_rotation p in
  let direction := applyEuler (mkVector3 0 1 0) (mkEuler (vx r) (vy r) (vz r)) in
  let projectile :=
    Store.mkProjectile id (Store.pl_position p) r
      (mkVector3 (vx direction * fireSpeed s) (vy direction * fireSpeed s)
                 (vz direction * fireSpeed s))%Q
      true "player" (fireStrength s) 2000 (fireRate s) in
  [Store.a_addProjectile projectile].

(** The distance of [checkCollisions]. *)
Definition distance (a b : Vector3) : Q :=
  Math_sqrt ((vx a - vx b) * (vx a - vx b) + (vy a - vy b) * (vy a - vy b)
             + (vz a - vz b) * (vz a - vz b)).

(** The inner loop of [checkCollisions] for one projectile: it stops at
    the first active enemy within distance 2. *)
Fixpoint hitFirst (projectile : Store.Projectile) (enemies all : list Store.Enemy)
  : list Store.Action :=
  match enemies with
  | [] => []
  | enemy :: rest =>
      if negb (Store.en_active enemy) then hitFirst projectile rest all
      else if Qlt_bool (distance (Store.pj_position projectile) (Store.en_position enemy)) 2
      then
        let health := (Store.en_health enemy - Store.pj_damage projectile)%Q in
        let updatedEnemy :=
          Store.mkEnemy (Store.en_id enemy) (Store.en_position enemy)
            (Store.en_rotation enemy) (Store.en_velocity enemy)
            (Store.en_active enemy) health (Store.en_points enemy)
            (Store.en_type enemy) in
        Store.a_removeProjectile (Store.pj_id projectile)
        :: (if Qle_bool health 0
            then [Store.a_removeEnemy (Store.en_id enemy);
                  Store.a_incrementScore (Store.en_points enemy)]
            else [Store.a_updateEnemies
                    (filter (fun e => negb (String.eqb (Store.en_id e) (Store.en_id enemy))) all
                     ++ [updatedEnemy])])
      else hitFirst projectile rest all
  end.

(** [checkCollisions()] *)
Definition checkCollisions (gameState : Store.GameState) : list Store.Action :=
  flat_map
    (fun projectile =>
       if negb (Store.pj_active projectile)
          || negb (String.eqb (Store.pj_owner projectile) "player")
       then []
       else hitFirst projectile (Store.enemies gameState) (Store.enemies gameState))
    (Store.projectiles gameState).

Definition moveProjectile (deltaTime : Q) (p : Store.Projectile) : Store.Projectile :=
  Store.mkProjectile (Store.pj_id p)
    (mkVector3 (vx (Store.pj_position p) + vx (Store.pj_velocity p) * deltaTime)
               (vy (Store.pj_position p) + vy (Store.pj_velocity p) * deltaTime)
               (vz (Store.pj_position p) + vz (Store.pj_velocity p) * deltaTime))%Q
    (Store.pj_rotation p) (Store.pj_velocity p) (Store.pj_active p) (Store.pj_owner p)
    (Store.pj_damage p) (Store.pj_lifetime p - deltaTime * 1000)%Q (Store.pj_rate p).

Definition moveEnemy (deltaTime : Q) (e : Store.Enemy) : Store.Enemy :=
  Store.mkEnemy (Store.en_id e)
    (mkVector3 (vx (Store.en_position e)) (vy (Store.en_position e) - 0.5 * deltaTime)
               (vz (Store.en_position e)))%Q
    (Store.en_rotation e) (Store.en_velocity e) (Store.en_active e) (Store.en_health e)
    (Store.en_points e) (Store.en_type e).

(** [updateGameState(deltaTime)] *)
Definition updateGameState (gameState : Store.GameState) (deltaTime : Q)
  : list Store.Action :=
  if negb (Store.isRunning gameState) || Store.isPaused gameState then []
  else
    let p := Store.player gameState in
    let updatedPlayer :=
      Store.mkPlayer (Store.pl_id p)
        (mkVector3 (vx (Store.pl_position p) + vx (Store.pl_velocity p) * deltaTime)
                   (vy (Store.pl_position p) + vy (Store.pl_velocity p) * deltaTime)
                   (vz (Store.pl_position p) + vz (Store.pl_velocity p) * deltaTime))%Q
        (Store.pl_rotation p)
        (mkVector3 (vx (Store.pl_velocity p) * 0.95) (vy (Store.pl_velocity p) * 0.95)
                   (vz (Store.pl_velocity p) * 0.95))%Q
        (Store.pl_active p) (Store.pl_health p) (Store.pl_lives p) (Store.pl_score p) in
    let updatedProjectiles :=
      filter (fun p => Qlt_bool 0 (Store.pj_lifetime p) && Store.pj_active p)
        (map (moveProjectile deltaTime) (Store.projectiles gameState)) in
    let updatedEnemies :=
      filter (fun e => Qlt_bool (-10) (vy (Store.en_position e)) && Store.en_active e)
        (map (moveEnemy deltaTime) (Store.enemies gameState)) in
    [Store.a_updatePlayer (Store.allOf updatedPlayer);
     Store.a_updateProjectiles updatedProjectiles;
     Store.a_updateEnemies updatedEnemies]
    ++ checkCollisions gameState.

End WithThree.

End GameContext.

(* ================================================================== *)
(** * The Game view of views/Home.tsx *)
(* ================================================================== *)

(** The older Game view kept in views/Home.tsx.  Its damage functions read
    [playerHealth] and [playerLives] from the render, so a render carries
    them as well.  The state, the timeouts and [endGame] are those of the
    Game view above. *)
Module OlderGame.

Record Closure := mkClosure {
  c_render : Render;
  c_playerHealth : Z;
  c_playerLives : Z
}.

(** [handleCollision(damage)]; the timers that only repaint the ship are
    left out. *)
Definition handleCollision (c : Closure) (damage : Z) (st : State) : State :=
  if isInvincible (playerRef st) || r_gameOver (c_render c) then st
  else
    let st := set_isInvincible true st in
    let newHealth := Z.max 0 (c_playerHealth c - damage) in
    let st := setPlayerHealth (fun _ => newHealth) st in
    let st :=
      if newHealth =? 0 then
        let newLives := c_playerLives c - 1 in
        let st := setPlayerLives (fun _ => newLives) st in
        if newLives <=? 0 then endGame (c_render c) st
        else setTimeout cb_restoreHealth 1000 st
      else st in
    setTimeout cb_clearInvincible 1500 st.

(** [handleEnemyReachedBottom(enemy)] *)
Definition handleEnemyReachedBottom (c : Closure) (st : State) : State :=
  let bottomDamage := bottomDamage (difficulty (r_settings (c_render c))) in
  if negb (r_gameOver (c_render c)) then handleCollision c bottomDamage st else st.

(** [handlePlayerEnemyCollision(enemy)] *)
Definition handlePlayerEnemyCollision (c : Closure) (st : State) : State :=
  let collisionDamage := collisionDamage (difficulty (r_settings (c_render c))) in
  handleCollision c collisionDamage st.

(** [applyDirectDamage(damage)] of this view. *)
Definition applyDirectDamage (c : Closure) (damage : Z) (st : State) : State :=
  let newHealth := Z.max 0 (c_playerHealth c - damage) in
  setPlayerHealth (fun _ => newHealth) st.

(** The closure of the loop that the mount effect starts: the values of
    the first render. *)
Definition firstClosure (s : Settings) : Closure :=
  mkClosure (mkRender s 0 false false) 100 3.

(** What the animation loop of this view does to the player, and the
    passing of time. *)
Inductive LoopEvent :=
| reachedBottom
| rammed
| wait (ms : Z).

Definition loopStep (c : Closure) (ev : LoopEvent) (st : State) : State :=
  match ev with
  | reachedBottom => handleEnemyReachedBottom c st
  | rammed => handlePlayerEnemyCollision c st
  | wait ms => elapse ms st
  end.

Definition loopRun (c : Closure) (evs : list LoopEvent) (st : State) : State :=
  fold_left (fun s ev => loopStep c ev s) evs st.

End OlderGame.

(* ================================================================== *)
(** * hooks/useGameLoop.ts *)
(* ================================================================== *)

Module UseGameLoop.

(** [animate(time)]: the argument of the call of [callback], if it is
    called, and [previousTimeRef.current] afterwards.  The quotient is
    exact here and rounded in the source; what is proved of the deltas
    below, their number, their sign and the cap, does not depend on the
    rounding. *)
Definition animate (time : Q) (previousTimeRef : option Q) : option Q * option Q :=
  let called :=
    match previousTimeRef with
    | Some previous =>
        let deltaTime := ((time - previous) / 1000)%Q in
        let cappedDeltaTime := Qmin deltaTime 0.1 in
        Some cappedDeltaTime
    | None => None
    end in
  (called, Some time).

(** The frames at [times] in an active loop: the arguments of the calls of
    [callback], in order. *)
Fixpoint frames (times : list Q) (previousTimeRef : option Q) : list Q :=
  match times with
  | [] => []
  | time :: rest =>
      let (called, previousTimeRef) := animate time previousTimeRef in
      match called with
      | Some cappedDeltaTime => cappedDeltaTime :: frames rest previousTimeRef
      | None => frames rest previousTimeRef
      end
  end.

End UseGameLoop.

(* ================================================================== *)
(** * views/Home.tsx: the Home view *)
(* ================================================================== *)

Module Home.

(** [displayHighScore], from the [highScore] of the store and the stored
    game data. *)
Definition displayHighScore (highScore : Z) (ls : GameStorage.LocalStorage) : Z :=
  let gameData := GameStorage.loadGameData ls in
  Z.max highScore (GameStorage.highScore gameData).

(** [totalGamesPlayed] *)
Definition totalGamesPlayed (ls : GameStorage.LocalStorage) : Z :=
  GameStorage.totalGamesPlayed (GameStorage.loadGameData ls).

End Home.

(** Calls of the storage helpers, in the order they are made. *)
Inductive StorageCall :=
| call_updateHighScore (score now : Z)
| call_incrementGamesPlayed (now : Z)
| call_saveGameSettings (s : option GameStorage.GameSettings).

Definition storageCall (c : StorageCall) (ls : GameStorage.LocalStorage)
  : GameStorage.LocalStorage :=
  match c with
  | call_updateHighScore score now => GameStorage.updateHighScore score now ls
  | call_incrementGamesPlayed now => GameStorage.incrementGamesPlayed now ls
  | call_saveGameSettings s => GameStorage.saveGameSettings s ls
  end.

Definition storageCalls (calls : list StorageCall) (ls : GameStorage.LocalStorage)
  : GameStorage.LocalStorage :=
  fold_left (fun ls c => storageCall c ls) calls ls.

(** The number of [incrementGamesPlayed] calls in a list. *)
Fixpoint increments (calls : list StorageCall) : Z :=
  match calls with
  | [] => 0
  | call_incrementGamesPlayed _ :: rest => 1 + increments rest
  | _ :: rest => increments rest
  end.

(** The largest of [h] and the scores passed to [updateHighScore]. *)
Fixpoint bestScore (h : Z) (calls : list StorageCall) : Z :=
  match calls with
  | [] => h
  | call_updateHighScore score _ :: rest => bestScore (Z.max h score) rest
  | _ :: rest => bestScore h rest
  end.

(* ================================================================== *)
(** * store/settingsSlice.ts *)
(* ================================================================== *)

Module SettingsSlice.

Record SettingsState := mkSettingsState {
  shipSpeed : Q;
  shipTorque : Q;
  fireSpeed : Q;
  fireRate : Q;
  fireStrength : Q;
  horizontalSpeed : Q;
  difficulty : Difficulty;
  soundEnabled : bool;
  musicVolume : Q;
  sfxVolume : Q
}.

Definition initialState : SettingsState :=
  mkSettingsState 5 0.05 10 1.5 1 3 medium true 0.7 0.8.

Inductive Action :=
| updateShipSpeed (payload : Q)
| updateShipTorque (payload : Q)
| updateFireSpeed (payload : Q)
| updateFireRate (payload : Q)
| updateFireStrength (payload : Q)
| updateHorizontalSpeed (payload : Q)
| updateDifficulty (payload : Difficulty)
| toggleSound
| updateMusicVolume (payload : Q)
| updateSfxVolume (payload : Q)
| resetToDefaults.

(** The reducers. *)
Definition reducer (state : SettingsState) (action : Action) : SettingsState :=
  match action with
  | updateShipSpeed payload =>
      mkSettingsState payload (shipTorque state) (fireSpeed state) (fireRate state)
        (fireStrength state) (horizontalSpeed state) (difficulty state)
        (soundEnabled state) (musicVolume state) (sfxVolume state)
  | updateShipTorque payload =>
      mkSettingsState (shipSpeed state) payload (fireSpeed state) (fireRate state)
        (fireStrength state) (horizontalSpeed state) (difficulty state)
        (soundEnabled state) (musicVolume state) (sfxVolume state)
  | updateFireSpeed payload =>
      mkSettingsState (shipSpeed state) (shipTorque state) payload (fireRate state)
        (fireStrength state) (horizontalSpeed state) (difficulty state)
        (soundEnabled state) (musicVolume state) (sfxVolume state)
  | updateFireRate payload =>
      mkSettingsState (shipSpeed state) (shipTorque state) (fireSpeed state) payload
        (fireStrength state) (horizontalSpeed state) (difficulty state)
        (soundEnabled state) (musicVolume state) (sfxVolume state)
  | updateFireStrength payload =>
      mkSettingsState (shipSpeed state) (shipTorque state) (fireSpeed state)
        (fireRate state) payload (horizontalSpeed state) (difficulty state)
        (soundEnabled state) (musicVolume state) (sfxVolume state)
  | updateHorizontalSpeed payload =>
      mkSettingsState (shipSpeed state) (shipTorque state) (fireSpeed state)
        (fireRate state) (fireStrength state) payload (difficulty state)
        (soundEnabled state) (musicVolume state) (sfxVolume state)
  | updateDifficulty payload =>
      mkSettingsState (shipSpeed state) (shipTorque state) (fireSpeed state)
        (fireRate state) (fireStrength state) (horizontalSpeed state) payload
        (soundEnabled state) (musicVolume state) (sfxVolume state)
  | toggleSound =>
      mkSettingsState (shipSpeed state) (shipTorque state) (fireSpeed state)
        (fireRate state) (fireStrength state) (horizontalSpeed state)
        (difficulty state) (negb (soundEnabled state)) (musicVolume state)
        (sfxVolume state)
  | updateMusicVolume payload =>
      mkSettingsState (shipSpeed state) (shipTorque state) (fireSpeed state)
        (fireRate state) (fireStrength state) (horizontalSpeed state)
        (difficulty state) (soundEnabled state) payload (sfxVolume state)
  | updateSfxVolume payload =>
      mkSettingsState (shipSpeed state) (shipTorque state) (fireSpeed state)
        (fireRate state) (fireStrength state) (horizontalSpeed state)
        (difficulty state) (soundEnabled state) (musicVolume state) payload
  | resetToDefaults => initialState
  end.

End SettingsSlice.

(* ================================================================== *)
(** * The two settings screens *)
(* ================================================================== *)

(** components/UI/SettingsPanel.tsx and the Settings view of
    views/Home.tsx; the setters are those of context/SettingsContext.tsx,
    each of which dispatches one action. *)
Module SettingsScreens.

Inductive Screen := SettingsPanel | SettingsView.

Inductive Slider :=
| ShipSpeed | ShipTorque | HorizontalSpeed | FireSpeed | FireRate | FireStrength
| MusicVolume | SfxVolume.

(** The [min] and [max] given to [handleSliderChange] for each slider. *)
Definition range (screen : Screen) (slider : Slider) : Q * Q :=
  match slider with
  | ShipSpeed => (1, 10)
  | ShipTorque => (0.01, 0.2)
  | HorizontalSpeed => (1, 8)
  | FireSpeed => (5, 20)
  | FireRate =>
      match screen with
      | SettingsPanel => (0.05, 0.5)
      | SettingsView => (0.1, 5)
      end
  | FireStrength => (0.5, 5)
  | MusicVolume => (0, 1)
  | SfxVolume => (0, 1)
  end%Q.

(** The setter given to [handleSliderChange] for each slider. *)
Definition setter (slider : Slider) (value : Q) : SettingsSlice.Action :=
  match slider with
  | ShipSpeed => SettingsSlice.updateShipSpeed value
  | ShipTorque => SettingsSlice.updateShipTorque value
  | HorizontalSpeed => SettingsSlice.updateHorizontalSpeed value
  | FireSpeed => SettingsSlice.updateFireSpeed value
  | FireRate => SettingsSlice.updateFireRate value
  | FireStrength => SettingsSlice.updateFireStrength value
  | MusicVolume => SettingsSlice.updateMusicVolume value
  | SfxVolume => SettingsSlice.updateSfxVolume value
  end.

(** [handleSliderChange(setter, min, max)(e)], with the number parsed from
    [e.target.value]. *)
Definition handleSliderChange (set : Q -> SettingsSlice.Action) (min max value : Q)
  : SettingsSlice.Action :=
  set (Qmax min (Qmin max value)).

(** What the user can do on either screen. *)
Inductive UserAction :=
| slide (screen : Screen) (slider : Slider) (value : Q)
| pickDifficulty (level : Difficulty)
| clickSound
| clickReset.

Definition dispatched (a : UserAction) : SettingsSlice.Action :=
  match a with
  | slide screen slider value =>
      handleSliderChange (setter slider) (fst (range screen slider))
        (snd (range screen slider)) value
  | pickDifficulty level => SettingsSlice.updateDifficulty level
  | clickSound => SettingsSlice.toggleSound
  | clickReset => SettingsSlice.resetToDefaults
  end.

Definition use (actions : list UserAction) (state : SettingsSlice.SettingsState)
  : SettingsSlice.SettingsState :=
  fold_left (fun state a => SettingsSlice.reducer state (dispatched a)) actions state.

End SettingsScreens.

(* ================================================================== *)
(** * Predicates used in the statements below *)
(* ================================================================== *)


(** Equality of vectors as numbers, component by component. *)
Definition veq (a b : Vector3) : Prop :=
  (vx a == vx b /\ vy a == vy b /\ vz a == vz b)%Q.

(** A position inside [GAME_BOUNDS]. *)
Definition inWorld (p : Vector3) : Prop :=
  (Physics.x_min <= vx p <= Physics.x_max
   /\ Physics.y_min <= vy p <= Physics.y_max
   /\ Physics.z_min <= vz p <= Physics.z_max)%Q.

(** [keysRef.current] of the Game view as the object it is. *)
Definition keysObject (k : Keys) : KeyRecord.t :=
  [("w"%string, key_w k); ("a"%string, key_a k); ("s"%string, key_s k);
   ("d"%string, key_d k); (" "%string, key_space k); ("q"%string, key_q k);
   ("e"%string, key_e k)].

(** The actions that [checkCollisions] dispatches. *)
Definition collisionAction (a : Store.Action) : bool :=
  match a with
  | Store.a_removeProjectile _ | Store.a_removeEnemy _
  | Store.a_incrementScore _ | Store.a_updateEnemies _ => true
  | _ => false
  end.

(** What a collision action leaves alone. *)
Definition sameGame (s s' : Store.GameState * GameStorage.LocalStorage) : Prop :=
  Store.player (fst s') = Store.player (fst s)
  /\ Store.isRunning (fst s') = Store.isRunning (fst s)
  /\ Store.isPaused (fst s') = Store.isPaused (fst s)
  /\ Store.gameOver (fst s') = Store.gameOver (fst s)
  /\ Store.level (fst s') = Store.level (fst s)
  /\ Store.highScore (fst s') = Store.highScore (fst s)
  /\ snd s' = snd s
  /\ incl (Store.projectiles (fst s')) (Store.projectiles (fst s)).


(** A running game with one projectile of the player just below one
    enemy. *)
Definition sampleStore : Store.GameState :=
  Store.mkGameState true false 1 Store.initialPlayer
    [Store.mkEnemy "e1" (mkVector3 0 1 0) Store.zero (mkVector3 0 (-2) 0) true 10 100
       "basic"]
    [Store.mkProjectile "p1" (mkVector3 0 0 0) Store.zero (mkVector3 0 10 0) true
       "player" 1 2000 (3 # 2)]
    0 0 false.

(** What the loop of the older Game view keeps: all three lives, no game
    over, at least half of the health, and no timeout pending other than
    the end of an invincibility. *)
Definition olderLoopKeeps (st : State) : Prop :=
  playerLives (hooks st) = 3
  /\ gameOver (hooks st) = false
  /\ 50 <= playerHealth (hooks st) <= 100
  /\ Forall (fun t => snd t = cb_clearInvincible) (timeouts (browser st)).


(** ** What the loops of the Game view keep *)

(** The player inside the square that [updateGame] clamps it to. *)
Definition inField (st : State) : Prop :=
  (-15 <= vx (position (playerRef st)) <= 15
   /\ -15 <= vy (position (playerRef st)) <= 15)%Q.

(** A projectile that [updateProjectiles] keeps. *)
Definition projectileLive (p : Projectile) : Prop :=
  (0 < p_lifetime p /\ Math_abs (vx (p_position p)) <= 20
   /\ Math_abs (vy (p_position p)) <= 20)%Q.

(** An enemy that [updateEnemies] keeps. *)
Definition enemyAlive (e : Enemy) : Prop :=
  (-15 <= vy (e_position e) /\ 0 < e_mesh_health e)%Q.

(** An explosion that [updateEffects] keeps. *)
Definition explosionLive (e : Explosion) : Prop :=
  particles e <> []
  /\ Forall (fun p => (0 < pt_lifetime p /\ pt_opacity p <= 1)%Q) (particles e).

(** The redux score is the score of the view plus [carried]; the player is
    in the field; the projectiles and the enemies are live. *)
Definition tidy (carried : Z) (st : State) : Prop :=
  score (hooks st) + carried = GameSlice.score (redux st)
  /\ inField st
  /\ Forall projectileLive (projectilesRef st)
  /\ Forall enemyAlive (enemiesRef st).

(** [st'] has the scores, the position of the player and the objects of
    [st]. *)
Definition untouched (st st' : State) : Prop :=
  score (hooks st') = score (hooks st)
  /\ GameSlice.score (redux st') = GameSlice.score (redux st)
  /\ position (playerRef st') = position (playerRef st)
  /\ projectilesRef st' = projectilesRef st
  /\ enemiesRef st' = enemiesRef st
  /\ effectsRef st' = effectsRef st.

(** The numeric settings within the widest range that a slider of either
    screen gives them. *)
Definition onTheSliders (s : SettingsSlice.SettingsState) : Prop :=
  (1 <= SettingsSlice.shipSpeed s <= 10
   /\ 0.01 <= SettingsSlice.shipTorque s <= 0.2
   /\ 1 <= SettingsSlice.horizontalSpeed s <= 8
   /\ 5 <= SettingsSlice.fireSpeed s <= 20
   /\ 0.05 <= SettingsSlice.fireRate s <= 5
   /\ 0.5 <= SettingsSlice.fireStrength s <= 5
   /\ 0 <= SettingsSlice.musicVolume s <= 1
   /\ 0 <= SettingsSlice.sfxVolume s <= 1)%Q.

(** A value that [Math.random()] can return, its upper end included. *)
Definition unitInterval (q : Q) : Prop := (0 <= q <= 1)%Q.

(** ** Proof steps used more than once *)

(** Case analysis on every integer comparison in the goal. *)
Ltac split_leb :=
  repeat match goal with
         | |- context [Z.leb ?a ?b] => destruct (Z.leb_spec a b); cbn
         end.

(** For a function that only rearranges fields. *)
Ltac same_hooks :=
  unfold follows, healthInRange; cbn; repeat split; intros; auto; try lia.

(** For a function that rearranges other fields. *)
Ltac untouched_fields := unfold untouched; cbn; repeat split.

(* ================================================================== *)
(** * Properties of the persistence helpers *)
(* ================================================================== *)

Lemma persisted_after_save (d : GameStorage.PartialGameData) (ls : GameStorage.LocalStorage) :
  GameStorage.persistedHighScore (GameStorage.saveGameData d ls)
  = GameStorage.orElse (GameStorage.p_highScore d) (GameStorage.persistedHighScore ls).
Proof. reflexivity. Qed.

Lemma updateHighScore_max (s now : Z) (ls : GameStorage.LocalStorage) :
  GameStorage.persistedHighScore (GameStorage.updateHighScore s now ls)
  = Z.max (GameStorage.persistedHighScore ls) s.
Proof.
  unfold GameStorage.updateHighScore.
  fold (GameStorage.persistedHighScore ls).
  destruct (Z.ltb_spec (GameStorage.persistedHighScore ls) s) as [Hlt | Hge].
  - unfold GameStorage.persistedHighScore at 1, GameStorage.loadGameData; simpl.
    lia.
  - rewrite persisted_after_save; simpl. lia.
Qed.

Lemma updateHighScores_monotone (calls : list (Z * Z)) :
  forall ls : GameStorage.LocalStorage,
    GameStorage.persistedHighScore ls
    <= GameStorage.persistedHighScore (GameStorage.updateHighScores calls ls).
Proof.
  induction calls as [| [s now] rest IH]; intros ls; simpl.
  - lia.
  - specialize (IH (GameStorage.updateHighScore s now ls)).
    rewrite updateHighScore_max in IH. lia.
Qed.

(** C10.  After [updateHighScore(s)] the stored high score that
    [loadGameData] reads back is the larger of the one stored before and
    [s]; so it never decreases along any run of such calls, and a call
    with [s] not above the stored value leaves it as it was. *)
Theorem updateHighScore_keeps_maximum
  (s now : Z) (ls : GameStorage.LocalStorage) (calls : list (Z * Z)) :
  GameStorage.persistedHighScore (GameStorage.updateHighScore s now ls)
  = Z.max (GameStorage.persistedHighScore ls) s
  /\ GameStorage.persistedHighScore ls
     <= GameStorage.persistedHighScore (GameStorage.updateHighScores calls ls)
  /\ (s <= GameStorage.persistedHighScore ls ->
      GameStorage.persistedHighScore (GameStorage.updateHighScore s now ls)
      = GameStorage.persistedHighScore ls).
Proof.
  split; [apply updateHighScore_max |].
  split; [apply updateHighScores_monotone |].
  intros Hle. rewrite updateHighScore_max. lia.
Qed.

Lemma updateHighScore_keeps_maximum_witness :
  let ls := GameStorage.updateHighScore 400 1 GameStorage.emptyStorage in
  GameStorage.persistedHighScore (GameStorage.updateHighScore 250 2 ls) = 400.
Proof.
  intros ls.
  destruct (updateHighScore_keeps_maximum 250 2 ls []) as [_ [_ Hsame]].
  rewrite Hsame; [reflexivity | vm_compute; discriminate].
Defined.

(** The redux reducer keeps its own high score in the same way. *)
Lemma reduxEndGame_highScore (g : GameSlice.GameState) (ls : GameStorage.LocalStorage) :
  GameSlice.highScore (fst (GameSlice.endGame g ls))
  = Z.max (GameSlice.highScore g) (GameSlice.score g).
Proof.
  unfold GameSlice.endGame.
  destruct (Z.ltb_spec (GameSlice.highScore g) (GameSlice.score g)); simpl; lia.
Qed.

(** Neither helper of the end of a game lowers the stored record. *)
Lemma reduxEndGame_keeps_data (g : GameSlice.GameState) (ls : GameStorage.LocalStorage) :
  GameStorage.persistedHighScore (snd (GameSlice.endGame g ls))
  = GameStorage.persistedHighScore ls.
Proof.
  unfold GameSlice.endGame.
  destruct (GameSlice.highScore g <? GameSlice.score g); reflexivity.
Qed.

(* ================================================================== *)
(** * Properties of the damage state machine *)
(* ================================================================== *)

(** C1.  A call of [damagePlayer] that arrives while [isInvincible] is set
    returns the state it was given: health, lives and score are as before
    and no timeout is added, so the event is dropped and not queued. *)
Theorem damagePlayer_while_invincible (r : Render) (amount : Z) (st : State) :
  isInvincible (playerRef st) = true ->
  damagePlayer r amount st = st.
Proof.
  intros Hinv. unfold damagePlayer. rewrite Hinv. reflexivity.
Qed.

Lemma damagePlayer_while_invincible_witness :
  let st := damagePlayer (firstRender medium) 30 (mounted medium) in
  isInvincible (playerRef st) = true
  /\ damagePlayer (firstRender medium) 50 st = st.
Proof.
  intros st. split.
  - reflexivity.
  - apply damagePlayer_while_invincible. reflexivity.
Defined.

(** What a call that is not skipped does, field by field. *)
Lemma damagePlayer_applied (r : Render) (amount : Z) (st : State) :
  isInvincible (playerRef st) = false ->
  r_gameOver r = false ->
  let st' := damagePlayer r amount st in
  let newHealth := Z.max 0 (playerHealth (hooks st) - amount) in
  playerHealth (hooks st') = newHealth
  /\ playerLives (hooks st')
     = (if newHealth =? 0 then playerLives (hooks st) - 1 else playerLives (hooks st))
  /\ score (hooks st') = score (hooks st)
  /\ gameOver (hooks st') = gameOver (hooks st)
  /\ isPaused (hooks st') = isPaused (hooks st)
  /\ isInvincible (playerRef st') = true
  /\ clock (browser st') = clock (browser st)
  /\ timeouts (browser st')
     = timeouts (browser st)
       ++ (if newHealth =? 0
           then [if playerLives (hooks st) - 1 <=? 0
                 then (clock (browser st) + 50, cb_endGame r)
                 else (clock (browser st) + 500, cb_restoreHealth)]
           else [])
       ++ [(clock (browser st) + 1000, cb_clearInvincible)].
Proof.
  intros Hinv Hover. unfold damagePlayer. rewrite Hinv, Hover. cbn [orb].
  destruct (Z.max 0 (playerHealth (hooks st) - amount) =? 0).
  - destruct (playerLives (hooks st) - 1 <=? 0); cbn;
      rewrite <- app_assoc; repeat split; reflexivity.
  - cbn. repeat split; reflexivity.
Qed.

(** C5.  With health 20 and two lives, [damagePlayer(30)] takes health to
    0 and lives to 1; health stays 0 until the 500 ms recovery window has
    passed and is 100 from then on, lives stay 1, and the game goes on:
    no game over, the pause flag, the animation loop and the spawn timer
    are as before. *)
Theorem damage_with_a_life_to_spare (r : Render) (st : State) (ms : Z) :
  playerHealth (hooks st) = 20 ->
  playerLives (hooks st) = 2 ->
  isInvincible (playerRef st) = false ->
  r_gameOver r = false ->
  gameOver (hooks st) = false ->
  timeouts (browser st) = [] ->
  let st1 := damagePlayer r 30 st in
  let st2 := elapse ms st1 in
  playerHealth (hooks st1) = 0
  /\ playerLives (hooks st1) = 1
  /\ (0 <= ms < 500 -> playerHealth (hooks st2) = 0)
  /\ (500 <= ms -> playerHealth (hooks st2) = 100)
  /\ playerLives (hooks st2) = 1
  /\ gameOver (hooks st2) = false
  /\ isPaused (hooks st2) = isPaused (hooks st)
  /\ animation (browser st2) = animation (browser st)
  /\ spawnTimer (browser st2) = spawnTimer (browser st).
Proof.
  intros Hh Hl Hinv Hover Hgo Hto st1 st2.
  subst st2 st1.
  unfold damagePlayer. rewrite Hinv, Hover, Hh, Hl. cbn [orb].
  change (Z.max 0 (20 - 30) =? 0) with true. cbn iota.
  change (2 - 1 <=? 0) with false. cbn iota.
  unfold elapse, setTimeout. cbn. rewrite Hto. cbn.
  split_leb; repeat split; intros; try reflexivity; try assumption; try lia.
Qed.

Lemma damage_with_a_life_to_spare_witness :
  let st1 := damagePlayer (firstRender medium) 30 secondLife in
  playerHealth (hooks st1) = 0
  /\ playerLives (hooks st1) = 1
  /\ playerHealth (hooks (elapse 500 st1)) = 100
  /\ gameOver (hooks (elapse 500 st1)) = false.
Proof.
  destruct (damage_with_a_life_to_spare (firstRender medium) secondLife 500
              eq_refl eq_refl eq_refl eq_refl eq_refl eq_refl)
    as (H1 & H2 & _ & H4 & _ & H6 & _).
  split; [exact H1 |].
  split; [exact H2 |].
  split; [apply H4; lia | exact H6].
Defined.

(** The last life, for the [damagePlayer] of any render [r] that still
    reads [gameOver] as false: the call takes health and lives to 0 and
    schedules [endGame] 50 ms ahead and nothing that restores health;
    [endGame] then passes the score captured by [r] to [updateHighScore]. *)
Lemma last_life_any_render (r : Render) (st : State) (ms : Z) :
  playerHealth (hooks st) = 10 ->
  playerLives (hooks st) = 1 ->
  isInvincible (playerRef st) = false ->
  r_gameOver r = false ->
  gameOver (hooks st) = false ->
  timeouts (browser st) = [] ->
  let st1 := damagePlayer r 30 st in
  let st2 := elapse ms st1 in
  playerHealth (hooks st1) = 0
  /\ playerLives (hooks st1) = 0
  /\ gameOver (hooks st1) = false
  /\ timeouts (browser st1)
     = [(clock (browser st) + 50, cb_endGame r);
        (clock (browser st) + 1000, cb_clearInvincible)]
  /\ (0 <= ms < 50 ->
      gameOver (hooks st2) = false /\ highScoreCalls st2 = highScoreCalls st)
  /\ (50 <= ms ->
      gameOver (hooks st2) = true
      /\ isPaused (hooks st2) = true
      /\ highScoreCalls st2 = highScoreCalls st ++ [r_score r])
  /\ playerHealth (hooks st2) = 0
  /\ playerLives (hooks st2) = 0.
Proof.
  intros Hh Hl Hinv Hover Hgo Hto st1 st2.
  subst st2 st1.
  unfold damagePlayer. rewrite Hinv, Hover, Hh, Hl. cbn [orb].
  change (Z.max 0 (10 - 30) =? 0) with true. cbn iota.
  change (1 - 1 <=? 0) with true. cbn iota.
  unfold elapse, setTimeout. cbn. rewrite Hto. cbn.
  split_leb; repeat split; intros; try reflexivity; try assumption; try lia.
Qed.

(** C4.  The session with one kill reaches the last life with health 10
    and a score of 100, and its next frame brings a collision of damage
    30, dealt by the animation loop.  Health and lives are 0 after that
    frame and nothing is scheduled that restores health; [endGame], the
    one of the first render, runs 50 ms later: it ends and pauses the
    game, and while the store records the score 100 as its high score,
    [updateHighScore] is handed the score of the first render, 0, so the
    stored game data keep a high score of 0.  Twenty-one frames later
    the next collision has taken the lives to -1 and back to 0 and
    [updateHighScore] has been called a second time, with 0 again. *)
Theorem last_life_hands_over_a_stale_score :
  let st1 := step (three := three_fixed) ev_frame onLastLife in
  let st2 := step (three := three_fixed) (ev_elapse 50) st1 in
  let st3 := run (three := three_fixed) (times 20 tick) st2 in
  let st4 := run (three := three_fixed) tick st3 in
  onLastLife = run (three := three_fixed) shootingSession (mounted medium)
  /\ hooks onLastLife = mkHooks 100 false 10 1 false
  /\ highScoreCalls onLastLife = []
  /\ hooks st1 = mkHooks 100 false 0 0 false
  /\ map snd (timeouts (browser st1))
     = [cb_endGame (firstRender medium); cb_clearInvincible]
  /\ hooks st2 = mkHooks 100 true 0 0 true
  /\ highScoreCalls st2 = [0]
  /\ GameSlice.highScore (redux st2) = 100
  /\ GameStorage.item_highScore (localStorage st2) = Some 100
  /\ GameStorage.persistedHighScore (localStorage st2) = 0
  /\ playerLives (hooks st3) = -1
  /\ playerLives (hooks st4) = 0
  /\ highScoreCalls st4 = [0; 0].
Proof.
  vm_compute. repeat split; reflexivity.
Qed.

(* ================================================================== *)
(** * Properties of spawning *)
(* ================================================================== *)

(** C9.  At difficulty hard every enemy that [spawnEnemy] adds has health
    15 (in the wrapper and on the mesh), moves straight down at 3 units a
    second and is worth 150 points, and [startGame] registers the spawn
    timer with a period of exactly 1000 ms. *)
Theorem hard_difficulty (r : Render) (st : State) :
  difficulty (r_settings r) = hard ->
  (exists e : Enemy,
      enemiesRef (spawnEnemy r st) = enemiesRef st ++ [e]
      /\ e_health e = 15%Q
      /\ e_mesh_health e = 15%Q
      /\ e_velocity e = mkVector3 0 (-3) 0
      /\ e_points e = 150)
  /\ spawnTimer (browser (startGame r st)) = Some (1000, r).
Proof.
  intros Hhard. split.
  - unfold spawnEnemy, enemyProperties. rewrite Hhard. cbn.
    eexists. split; [reflexivity |]. cbn. repeat split; reflexivity.
  - unfold startGame, spawnInterval. rewrite Hhard. reflexivity.
Qed.

Lemma hard_difficulty_witness :
  exists e : Enemy,
    enemiesRef (spawnEnemy (firstRender hard) (mounted hard)) = [e]
    /\ e_health e = 15%Q
    /\ e_points e = 150.
Proof.
  destruct (hard_difficulty (firstRender hard) (mounted hard) eq_refl)
    as [[e (He & Hh & _ & _ & Hp)] _].
  exists e. split; [exact He |]. split; [exact Hh | exact Hp].
Defined.

(** The callback of the spawn interval reads the pause and game-over flags
    of the render it was created in, not those of the state. *)
Lemma enemySpawnTimer_spawns (r : Render) (st : State) :
  r_isPaused r = false ->
  r_gameOver r = false ->
  enemySpawnTimer r st = spawnEnemy r st.
Proof.
  intros Hp Hg. unfold enemySpawnTimer. rewrite Hp, Hg. reflexivity.
Qed.

Lemma spawnEnemy_adds_one (r : Render) (st : State) :
  List.length (enemiesRef (spawnEnemy r st)) = S (List.length (enemiesRef st)).
Proof.
  unfold spawnEnemy.
  destruct (enemyProperties (difficulty (r_settings r))) as [[h v] p]. cbn.
  rewrite length_app. cbn. lia.
Qed.

(** [startGame] runs in the mount effect, so the interval keeps the first
    render, in which the game is neither paused nor over. *)
Lemma mount_spawnTimer (s : Settings) (now : Z) (randoms : list Q)
  (g : GameSlice.GameState) (ls : GameStorage.LocalStorage) :
  spawnTimer (browser (mount s now randoms g ls))
  = Some (spawnInterval (difficulty s), mkRender s 0 false false).
Proof. reflexivity. Qed.

(** C8, evaluated.  The player pauses with Escape right after the mount:
    [isPaused] is true and there is no enemy; the spawn timer fires and
    there is one.  In the idle session the game is over; the spawn timer
    fires and the enemies are one more. *)
Theorem spawn_timer_ignores_pause_and_game_over :
  let paused := step (three := three_fixed) (ev_keydown Kescape) (mounted medium) in
  isPaused (hooks paused) = true
  /\ List.length (enemiesRef paused) = 0%nat
  /\ List.length (enemiesRef (step (three := three_fixed) ev_spawnTimer paused)) = 1%nat
  /\ gameOver (hooks afterGameOver) = true
  /\ isPaused (hooks afterGameOver) = true
  /\ List.length (enemiesRef (step (three := three_fixed) ev_spawnTimer afterGameOver))
     = S (List.length (enemiesRef afterGameOver)).
Proof.
  vm_compute. repeat split; reflexivity.
Qed.

(* ================================================================== *)
(** * Properties of the weapon *)
(* ================================================================== *)

Lemma Qlt_bool_iff (a b : Q) : Qlt_bool a b = true <-> (a < b)%Q.
Proof.
  unfold Qlt_bool. rewrite negb_true_iff.
  split.
  - intros H. apply Qnot_le_lt. intros Hle.
    apply Qle_bool_iff in Hle. congruence.
  - intros H. destruct (Qle_bool b a) eqn:E; [| reflexivity].
    apply Qle_bool_iff in E. exfalso. exact (Qlt_not_le _ _ H E).
Qed.

(** What the guard of the weapon tests: no shot so far, or strictly more
    than [fireRate * 100] milliseconds since the last one. *)
Lemma canFire_iff (r : Render) (now last : Z) :
  canFire r now last = true
  <-> last = 0 \/ (fireRate (r_settings r) * 100 < inject_Z (now - last))%Q.
Proof.
  unfold canFire. rewrite orb_true_iff, Z.eqb_eq, Qlt_bool_iff. reflexivity.
Qed.

(** Once [fireRate] seconds have passed the guard lets the shot through;
    the converse is what the factor 100 breaks. *)
Lemma canFire_after_cooldown (r : Render) (now last : Z) :
  (0 < fireRate (r_settings r))%Q ->
  (fireRate (r_settings r) * 1000 <= inject_Z (now - last))%Q ->
  canFire r now last = true.
Proof.
  intros Hpos Hle. apply canFire_iff. right.
  apply Qlt_le_trans with (y := (fireRate (r_settings r) * 1000)%Q); [| exact Hle].
  apply Qmult_lt_l; [exact Hpos | reflexivity].
Qed.

Section Weapon.

Context {three : Three}.

(** A shot: the projectile starts where the player is, flies along the
    player's forward vector at the configured fire speed, carries the
    configured fire strength and lives 2000 ms; the time of the shot is
    recorded. *)
Lemma updateGame_fire_shoots (r : Render) (st : State) :
  key_space (keysRef st) = true ->
  canFire r (clock (browser st)) (lastFireTime (playerRef st)) = true ->
  let st' := updateGame_fire r st in
  projectilesRef st'
  = projectilesRef st
    ++ [mkProjectile (position (playerRef st))
          (multiplyScalar
             (normalize (applyEuler (mkVector3 0 1 0) (rotation (playerRef st))))
             (fireSpeed (r_settings r)))
          (fireStrength (r_settings r)) 2000]
  /\ lastFireTime (playerRef st') = clock (browser st).
Proof.
  intros Hk Hc. unfold updateGame_fire. rewrite Hk, Hc. split; reflexivity.
Qed.

(** On cooldown nothing is created and nothing is kept for later. *)
Lemma updateGame_fire_cooldown (r : Render) (st : State) :
  canFire r (clock (browser st)) (lastFireTime (playerRef st)) = false ->
  updateGame_fire r st = st.
Proof.
  intros Hc. unfold updateGame_fire. rewrite Hc.
  destruct (key_space (keysRef st)); reflexivity.
Qed.

Lemma updateGame_fire_no_intent (r : Render) (st : State) :
  key_space (keysRef st) = false ->
  updateGame_fire r st = st.
Proof.
  intros Hk. unfold updateGame_fire. rewrite Hk. reflexivity.
Qed.

(** C6, evaluated.  The fire rate is 1.5 seconds and the last shot was
    200 ms ago, so fewer than [fireRate * 1000] ms have passed; the fire
    key is down.  The guard compares with [fireRate * 100], lets the shot
    through, and a projectile is created. *)
Theorem fires_before_the_cooldown_is_over :
  let r := firstRender medium in
  let st := updateGame_fire r holdingFire in
  fireRate (r_settings r) = 1.5%Q
  /\ key_space (keysRef holdingFire) = true
  /\ clock (browser holdingFire) - lastFireTime (playerRef holdingFire) = 200
  /\ Qlt_bool (inject_Z 200) (fireRate (r_settings r) * 1000) = true
  /\ List.length (projectilesRef holdingFire) = 0%nat
  /\ List.length (projectilesRef st) = 1%nat
  /\ lastFireTime (playerRef st) = 1000200.
Proof.
  cbn. repeat split; reflexivity.
Qed.

End Weapon.

(* ================================================================== *)
(** * Properties of the pass over the enemies *)
(* ================================================================== *)

(** [damagePlayer] leaves the score, the projectiles, the effects and the
    persistent stores alone. *)
Lemma damagePlayer_frame (r : Render) (amount : Z) (st : State) :
  let st' := damagePlayer r amount st in
  score (hooks st') = score (hooks st)
  /\ projectilesRef st' = projectilesRef st
  /\ effectsRef st' = effectsRef st
  /\ redux st' = redux st
  /\ localStorage st' = localStorage st
  /\ highScoreCalls st' = highScoreCalls st.
Proof.
  unfold damagePlayer.
  destruct (isInvincible (playerRef st) || r_gameOver r); [cbn; tauto |].
  destruct (Z.max 0 (playerHealth (hooks st) - amount) =? 0);
    [destruct (playerLives (hooks st) - 1 <=? 0) |]; cbn; tauto.
Qed.

Section Enemies.

Context {three : Three}.

(** C7, as the code has it.  For an enemy that is below the bottom edge
    after its move, the body of the loop takes the bottom-edge path
    whatever the projectiles are: the bottom damage goes to [damagePlayer]
    (unless the closure reads the game as over), the enemy leaves the
    array, and the score, the projectiles and the effects are untouched.
    The edge is tested before the collisions with the player and with the
    projectiles. *)
Theorem bottom_edge_comes_first (r : Render) (deltaTime : Q) (enemy : Enemy) (st : State) :
  (vy (e_position (moveEnemy deltaTime enemy)) < -15)%Q ->
  let out := updateEnemy r deltaTime enemy st in
  out = (if r_gameOver r then st
         else damagePlayer r (bottomDamage (difficulty (r_settings r))) st,
         None)
  /\ score (hooks (fst out)) = score (hooks st)
  /\ GameSlice.score (redux (fst out)) = GameSlice.score (redux st)
  /\ projectilesRef (fst out) = projectilesRef st
  /\ effectsRef (fst out) = effectsRef st.
Proof.
  intros Hlow out.
  assert (Hout : out = (if r_gameOver r then st
                        else damagePlayer r (bottomDamage (difficulty (r_settings r))) st,
                        None)).
  { subst out. unfold updateEnemy.
    apply Qlt_bool_iff in Hlow. rewrite Hlow.
    destruct (r_gameOver r); reflexivity. }
  split; [exact Hout |].
  rewrite Hout. cbn [fst].
  destruct (r_gameOver r).
  - repeat split; reflexivity.
  - destruct (damagePlayer_frame r (bottomDamage (difficulty (r_settings r))) st)
      as (Hs & Hp & He & Hr & _).
    rewrite Hr. repeat split; assumption.
Qed.

End Enemies.

Lemma bottom_edge_comes_first_witness :
  let r := firstRender medium in
  let st := updateProjectiles 0.1 atTheEdge in
  let out := updateEnemy (three := three_fixed) r 0.1 doomedEnemy st in
  snd out = None
  /\ score (hooks (fst out)) = 0
  /\ projectilesRef (fst out) = projectilesRef st.
Proof.
  intros r st out.
  assert (Hlow : (vy (e_position (moveEnemy 0.1 doomedEnemy)) < -15)%Q)
    by (vm_compute; reflexivity).
  destruct (bottom_edge_comes_first (three := three_fixed) r 0.1 doomedEnemy st Hlow)
    as (Hout & Hs & _ & Hp & _).
  split; [subst out; rewrite Hout; reflexivity |].
  split; [exact Hs | exact Hp].
Defined.

(** C7 as stated fails.  In one update the enemy crosses the bottom edge
    and the projectile comes to the very place of the enemy with enough
    damage to destroy it; the pass takes the bottom-edge path: no points
    are credited, the player takes the bottom damage of 20, the enemy is
    gone without an explosion and the projectile is still there. *)
Lemma bottom_edge_counterexample :
  let r := firstRender medium in
  let enemy' := moveEnemy 0.1 doomedEnemy in
  let shot' := moveProjectile 0.1 shot in
  let st := updateGame (three := three_fixed) r 0.1 atTheEdge in
  Qlt_bool (vy (e_position enemy')) (-15) = true
  /\ checkCollision (three := three_fixed) (p_position shot') (e_position enemy') 0.2 0.8 = true
  /\ snd (takeDamage (p_damage shot') enemy') = true
  /\ e_points doomedEnemy = 100
  /\ score (hooks atTheEdge) = 0
  /\ playerHealth (hooks atTheEdge) = 100
  /\ score (hooks st) = 0
  /\ GameSlice.score (redux st) = 0
  /\ playerHealth (hooks st) = 80
  /\ enemiesRef st = []
  /\ projectilesRef st = [shot']
  /\ effectsRef st = [].
Proof.
  vm_compute. repeat split; reflexivity.
Qed.

(* ================================================================== *)
(** * The idle session *)
(* ================================================================== *)

(** The view starts with health 100 and three lives; the loops it starts
    keep the first render. *)
Lemma mounted_start :
  playerHealth (hooks (mounted medium)) = 100
  /\ playerLives (hooks (mounted medium)) = 3
  /\ animation (browser (mounted medium)) = Some (firstRender medium)
  /\ spawnTimer (browser (mounted medium)) = Some (2000, firstRender medium).
Proof. repeat split; reflexivity. Qed.

(** C2, evaluated.  From the initial state (health 100, three lives) the
    idle session leads, through damage of 20 at the bottom edge each time,
    to the game over with no life left; in the next frame one more enemy
    crosses the edge, the animation loop's [damagePlayer] still reads
    [gameOver] as false, and the lives become -1. *)
Theorem lives_become_negative :
  let st := step (three := three_fixed) ev_frame afterGameOver in
  afterGameOver = run (three := three_fixed) idleSession (mounted medium)
  /\ playerHealth (hooks (mounted medium)) = 100
  /\ playerLives (hooks (mounted medium)) = 3
  /\ playerLives (hooks afterGameOver) = 0
  /\ playerHealth (hooks st) = 0
  /\ playerLives (hooks st) = -1.
Proof.
  vm_compute. repeat split; reflexivity.
Qed.

(** C3, evaluated.  At the end of the idle session the lives are 0, the
    game is over and paused, and the invincibility of the last hit has
    run out.  The next frame still updates the game: the damage of an
    enemy at the bottom edge is applied, the lives change from 0 to -1,
    the player is invincible again and a further [endGame] is scheduled,
    which calls [updateHighScore] once more.  In the session with one
    kill the player fires after the game is over, and a frame takes the
    score from 100 to 200. *)
Theorem game_over_is_not_final :
  let st := step (three := three_fixed) ev_frame afterGameOver in
  let later := step (three := three_fixed) (ev_elapse 50) st in
  let scored := step (three := three_fixed) ev_frame firingAfterGameOver in
  gameOver (hooks firingAfterGameOver) = true
  /\ score (hooks firingAfterGameOver) = 100
  /\ gameOver (hooks scored) = true
  /\ score (hooks scored) = 200
  /\ gameOver (hooks afterGameOver) = true
  /\ isPaused (hooks afterGameOver) = true
  /\ playerLives (hooks afterGameOver) = 0
  /\ isInvincible (playerRef afterGameOver) = false
  /\ timeouts (browser afterGameOver) = []
  /\ highScoreCalls afterGameOver = [0]
  /\ gameOver (hooks st) = true
  /\ playerLives (hooks st) = -1
  /\ isInvincible (playerRef st) = true
  /\ timeouts (browser st)
     = [(clock (browser st) + 50, cb_endGame (firstRender medium));
        (clock (browser st) + 1000, cb_clearInvincible)]
  /\ playerLives (hooks later) = 0
  /\ highScoreCalls later = [0; 0].
Proof.
  vm_compute. repeat split; reflexivity.
Qed.

(* ================================================================== *)
(** * Invariants of the event loop *)
(* ================================================================== *)

Lemma follows_refl (st : State) : follows st st.
Proof. unfold follows. tauto. Qed.

Lemma follows_trans (a b c : State) : follows a b -> follows b c -> follows a c.
Proof.
  unfold follows. intros (H1 & H2 & H3 & H4 & H5 & H6) (K1 & K2 & K3 & K4 & K5 & K6).
  split; [congruence |]. split; [congruence |]. split; [congruence |].
  split; [congruence |]. split; auto.
Qed.

Lemma follows_with_playerRef p st : follows st (with_playerRef p st).
Proof. same_hooks. Qed.
Lemma follows_with_projectiles l st : follows st (with_projectiles l st).
Proof. same_hooks. Qed.
Lemma follows_with_enemies l st : follows st (with_enemies l st).
Proof. same_hooks. Qed.
Lemma follows_with_effects l st : follows st (with_effects l st).
Proof. same_hooks. Qed.
Lemma follows_with_keys k st : follows st (with_keys k st).
Proof. same_hooks. Qed.
Lemma follows_with_previousTime t st : follows st (with_previousTime t st).
Proof. same_hooks. Qed.
Lemma follows_with_persistence g ls c st : follows st (with_persistence g ls c st).
Proof. same_hooks. Qed.
Lemma follows_set_clock t st : follows st (set_clock t st).
Proof. same_hooks. Qed.
Lemma follows_set_timeouts l st : follows st (set_timeouts l st).
Proof. same_hooks. Qed.
Lemma follows_setScore f st : follows st (setScore f st).
Proof. same_hooks. Qed.
Lemma follows_setIsPaused f st : follows st (setIsPaused f st).
Proof. same_hooks. Qed.
Lemma follows_setPlayerLives f st : follows st (setPlayerLives f st).
Proof. same_hooks. Qed.
Lemma follows_Math_random st : follows st (snd (Math_random st)).
Proof. same_hooks. Qed.

Lemma follows_setPlayerHealth (h : Z) (st : State) :
  0 <= h <= 100 -> follows st (setPlayerHealth (fun _ => h) st).
Proof. intros Hh. same_hooks; lia. Qed.

Lemma follows_damagePlayer (r : Render) (amount : Z) (st : State) :
  0 <= amount -> follows st (damagePlayer r amount st).
Proof.
  intros Ha. unfold damagePlayer.
  destruct (isInvincible (playerRef st) || r_gameOver r); [apply follows_refl |].
  destruct (Z.max 0 (playerHealth (hooks st) - amount) =? 0);
    [destruct (playerLives (hooks st) - 1 <=? 0) |];
    unfold follows, healthInRange; cbn; repeat split; auto; lia.
Qed.

Lemma follows_endGame (r : Render) (st : State) : follows st (endGame r st).
Proof. same_hooks. Qed.

Section Frames.

Context {three : Three}.

Lemma follows_createParticle (position : Vector3) (st : State) :
  follows st (snd (createParticle position st)).
Proof. same_hooks. Qed.

Lemma follows_createParticles (n : nat) (position : Vector3) :
  forall st, follows st (snd (createParticles n position st)).
Proof.
  induction n as [| n IH]; intros st; cbn [createParticles].
  - apply follows_refl.
  - pose proof (follows_createParticle position st) as H1.
    destruct (createParticle position st) as [p st1]. cbn [snd] in H1.
    specialize (IH st1).
    destruct (createParticles n position st1) as [ps st2]. cbn [snd] in *.
    eapply follows_trans; eassumption.
Qed.

Lemma follows_createExplosion (position : Vector3) (st : State) :
  follows st (snd (createExplosion position st)).
Proof.
  unfold createExplosion.
  pose proof (follows_createParticles 15 position st) as H.
  destruct (createParticles 15 position st) as [ps st']. exact H.
Qed.

Lemma bottomDamage_nonneg d : 0 <= bottomDamage d.
Proof. destruct d; cbn; lia. Qed.
Lemma collisionDamage_nonneg d : 0 <= collisionDamage d.
Proof. destruct d; cbn; lia. Qed.

Lemma follows_updateEnemy (r : Render) (dt : Q) (enemy : Enemy) (st : State) :
  follows st (fst (updateEnemy r dt enemy st)).
Proof.
  unfold updateEnemy.
  destruct (Qlt_bool _ _).
  - cbn [fst]. destruct (negb (r_gameOver r)); [| apply follows_refl].
    apply follows_damagePlayer, bottomDamage_nonneg.
  - destruct (_ && _).
    + cbn [fst]. apply follows_damagePlayer, collisionDamage_nonneg.
    + destruct (projectileLoop _ _) as [[fromLast enemy'] destroyed].
      destruct destroyed; cbn [fst]; [| apply follows_with_projectiles].
      pose proof (follows_createExplosion (e_position enemy')
                    (with_projectiles (rev fromLast) st)) as H.
      destruct (createExplosion _ _) as [explosion st'].
      cbn [fst snd] in *.
      eapply follows_trans; [apply follows_with_projectiles |].
      eapply follows_trans; [exact H |].
      same_hooks.
Qed.

Lemma follows_enemyLoop (r : Render) (dt : Q) (fromLast : list Enemy) :
  forall kept st, follows st (fst (enemyLoop r dt fromLast kept st)).
Proof.
  induction fromLast as [| enemy rest IH]; intros kept st; cbn.
  - apply follows_refl.
  - pose proof (follows_updateEnemy r dt enemy st) as H.
    destruct (updateEnemy r dt enemy st) as [st' stays]. cbn [fst] in H.
    eapply follows_trans; [exact H | apply IH].
Qed.

Lemma follows_updateEnemies (r : Render) (dt : Q) (st : State) :
  follows st (updateEnemies r dt st).
Proof.
  unfold updateEnemies.
  pose proof (follows_enemyLoop r dt (rev (enemiesRef st)) [] st) as H.
  destruct (enemyLoop _ _ _ _ _) as [st' kept]. cbn [fst] in H.
  eapply follows_trans; [exact H | apply follows_with_enemies].
Qed.

Lemma follows_updateGame_move (r : Render) (dt : Q) (st : State) :
  follows st (updateGame_move r dt st).
Proof.
  unfold updateGame_move.
  destruct (_ && _); apply follows_with_playerRef.
Qed.

Lemma follows_updateGame_fire (r : Render) (st : State) :
  follows st (updateGame_fire r st).
Proof.
  unfold updateGame_fire.
  destruct (key_space _); [| apply follows_refl].
  destruct (canFire _ _ _); [| apply follows_refl].
  same_hooks.
Qed.

Lemma follows_updateGame (r : Render) (dt : Q) (st : State) :
  follows st (updateGame r dt st).
Proof.
  unfold updateGame.
  eapply follows_trans; [apply follows_updateGame_move |].
  eapply follows_trans; [apply follows_updateGame_fire |].
  eapply follows_trans; [apply follows_with_projectiles |].
  eapply follows_trans; [apply follows_updateEnemies |].
  apply follows_with_effects.
Qed.

Lemma follows_runCallback (cb : Callback) (st : State) :
  follows st (runCallback cb st).
Proof.
  destruct cb as [r | |]; cbn [runCallback].
  - apply follows_endGame.
  - apply follows_setPlayerHealth. lia.
  - apply follows_with_playerRef.
Qed.

Lemma follows_callbacks (due : list (Z * Callback)) :
  forall st,
    follows st
      (fold_left
         (fun s t => runCallback (snd t) (set_clock (Z.max (clock (browser s)) (fst t)) s))
         due st).
Proof.
  induction due as [| t rest IH]; intros st; cbn [fold_left].
  - apply follows_refl.
  - eapply follows_trans; [| apply IH].
    eapply follows_trans; [apply follows_set_clock | apply follows_runCallback].
Qed.

Lemma follows_elapse (ms : Z) (st : State) : follows st (elapse ms st).
Proof.
  unfold elapse.
  eapply follows_trans; [apply follows_set_timeouts |].
  eapply follows_trans; [apply follows_callbacks | apply follows_set_clock].
Qed.

(** [animate] registers itself again. *)
Lemma follows_animate (r : Render) (time : Q) (st : State) :
  animation (browser st) = Some r ->
  follows st (animate r time st).
Proof.
  intros Hr. unfold animate.
  set (dt := Qmin _ _).
  assert (H : follows st
                (if negb (r_isPaused r)
                 then updateGame r dt (with_previousTime (Some time) st)
                 else with_previousTime (Some time) st)).
  { destruct (negb (r_isPaused r)).
    - eapply follows_trans; [apply follows_with_previousTime | apply follows_updateGame].
    - apply follows_with_previousTime. }
  destruct H as (H1 & H2 & H3 & H4 & H5 & H6).
  unfold follows.
  split; [exact H1 |].
  split; [cbn; symmetry; exact Hr |].
  split; [exact H3 |].
  split; [exact H4 |].
  split; [exact H5 | exact H6].
Qed.

Lemma follows_spawnEnemy (r : Render) (st : State) : follows st (spawnEnemy r st).
Proof.
  unfold spawnEnemy.
  destruct (enemyProperties (difficulty (r_settings r))) as [[h v] p].
  same_hooks.
Qed.

Lemma follows_handleKeyDown (r : Render) (k : Key) (st : State) :
  follows st (handleKeyDown r k st).
Proof. destruct k; same_hooks. Qed.

Lemma follows_step (ev : Event) (st : State) : follows st (step ev st).
Proof.
  destruct ev as [ms | | | k | k | |]; cbn [step].
  - apply follows_elapse.
  - destruct (animation (browser st)) as [r |] eqn:E; [| apply follows_refl].
    apply follows_animate. exact E.
  - destruct (spawnTimer (browser st)) as [[p r] |]; [| apply follows_refl].
    unfold enemySpawnTimer.
    destruct (_ && _); [apply follows_spawnEnemy | apply follows_refl].
  - destruct (keyListener (browser st)); [| apply follows_refl].
    apply follows_handleKeyDown.
  - destruct (keyListener (browser st)); [| apply follows_refl].
    apply follows_with_keys.
  - unfold applyDirectDamage.
    destruct (r_gameOver _); [apply follows_refl |].
    apply follows_damagePlayer. lia.
  - apply follows_setIsPaused.
Qed.

Lemma follows_run (evs : list Event) : forall st, follows st (run evs st).
Proof.
  unfold run.
  induction evs as [| ev rest IH]; intros st; cbn [fold_left].
  - apply follows_refl.
  - eapply follows_trans; [apply follows_step | apply IH].
Qed.

(** Whatever happens after the mount, health stays within 0..100. *)
Lemma health_stays_in_range (s : Settings) (now : Z) (randoms : list Q)
  (g : GameSlice.GameState) (ls : GameStorage.LocalStorage) (evs : list Event) :
  healthInRange (run evs (mount s now randoms g ls)).
Proof.
  apply (follows_run evs (mount s now randoms g ls)).
  unfold healthInRange. cbn. lia.
Qed.

(** Once [gameOver] is set it stays set. *)
Lemma gameOver_stays (evs : list Event) (st : State) :
  gameOver (hooks st) = true -> gameOver (hooks (run evs st)) = true.
Proof. apply (follows_run evs st). Qed.

(** Whatever happens after the mount, and whatever the pause and game-over
    flags have become, the spawn timer adds an enemy each time it fires. *)
Lemma spawn_timer_spawns_in_every_state (s : Settings) (now : Z) (randoms : list Q)
  (g : GameSlice.GameState) (ls : GameStorage.LocalStorage) (evs : list Event) :
  let st := run evs (mount s now randoms g ls) in
  List.length (enemiesRef (step ev_spawnTimer st)) = S (List.length (enemiesRef st)).
Proof.
  intros st. cbn [step].
  destruct (follows_run evs (mount s now randoms g ls)) as (Hs & _).
  fold st in Hs. rewrite Hs, mount_spawnTimer.
  rewrite enemySpawnTimer_spawns by reflexivity.
  apply spawnEnemy_adds_one.
Qed.

End Frames.

(* ================================================================== *)
(** * Properties of the physics helpers *)
(* ================================================================== *)

Lemma Qclamp_between (lo hi x : Q) :
  (lo <= hi)%Q -> (lo <= Qmax lo (Qmin hi x) <= hi)%Q.
Proof.
  intros Hle. split.
  - apply Q.le_max_l.
  - apply Q.max_lub; [exact Hle | apply Q.le_min_l].
Qed.

Lemma Qclamp_inside (lo hi x : Q) :
  (lo <= x <= hi)%Q -> (Qmax lo (Qmin hi x) == x)%Q.
Proof.
  intros [H1 H2].
  rewrite (Q.min_r hi x H2). apply Q.max_r. exact H1.
Qed.

Lemma Qlt_bool_false (a b : Q) : (b <= a)%Q -> Qlt_bool a b = false.
Proof.
  intros H. unfold Qlt_bool. apply negb_false_iff. apply Qle_bool_iff. exact H.
Qed.

Lemma enforceWorldBounds_inWorld (p : Vector3) : inWorld (Physics.enforceWorldBounds p).
Proof.
  unfold inWorld, Physics.enforceWorldBounds. cbn [vx vy vz].
  repeat split; apply Qclamp_between; unfold Qle; cbn; lia.
Qed.

(** X1.  [enforceWorldBounds] returns a position inside [GAME_BOUNDS] whatever
    it is given, changes nothing when applied a second time, and returns a
    position that is already inside as it is. *)
Theorem enforceWorldBounds_clamps (p : Vector3) :
  inWorld (Physics.enforceWorldBounds p)
  /\ veq (Physics.enforceWorldBounds (Physics.enforceWorldBounds p))
         (Physics.enforceWorldBounds p)
  /\ (inWorld p -> veq (Physics.enforceWorldBounds p) p).
Proof.
  split; [apply enforceWorldBounds_inWorld |].
  split.
  - unfold veq, Physics.enforceWorldBounds; cbn [vx vy vz].
    repeat split; apply Qclamp_inside; apply Qclamp_between; unfold Qle; cbn; lia.
  - intros (Hx & Hy & Hz).
    unfold veq, Physics.enforceWorldBounds; cbn [vx vy vz].
    repeat split; apply Qclamp_inside; assumption.
Qed.

Lemma enforceWorldBounds_clamps_witness :
  inWorld (mkVector3 3 (-20) 5)
  /\ veq (Physics.enforceWorldBounds (mkVector3 3 (-20) 5)) (mkVector3 3 (-20) 5).
Proof.
  assert (Hin : inWorld (mkVector3 3 (-20) 5))
    by (unfold inWorld, Qle; cbn; lia).
  split; [exact Hin |].
  destruct (enforceWorldBounds_clamps (mkVector3 3 (-20) 5)) as (_ & _ & H).
  exact (H Hin).
Defined.

(** X2.  A position that went through [enforceWorldBounds] is never reported
    by [isOutOfBounds], for the default margin and for any margin that is
    not negative. *)
Theorem enforced_is_not_out_of_bounds (p : Vector3) (margin : Q) :
  (0 <= margin)%Q ->
  Physics.isOutOfBounds (Physics.enforceWorldBounds p) (Some margin) = false
  /\ Physics.isOutOfBounds (Physics.enforceWorldBounds p) None = false.
Proof.
  intros Hm.
  destruct (enforceWorldBounds_inWorld p) as ([Hx1 Hx2] & [Hy1 Hy2] & [Hz1 Hz2]).
  assert (Hout : forall m : Q, (0 <= m)%Q ->
            Physics.isOutOfBounds (Physics.enforceWorldBounds p) (Some m) = false).
  { intros m H0. unfold Physics.isOutOfBounds. cbn [GameStorage.orElse].
    unfold Physics.x_min, Physics.x_max, Physics.y_min, Physics.y_max,
      Physics.z_min, Physics.z_max in *.
    rewrite !Qlt_bool_false; [reflexivity | lra | lra | lra | lra | lra | lra]. }
  split; [apply Hout; exact Hm |].
  apply (Hout 5%Q). unfold Qle; cbn; lia.
Qed.

Lemma enforced_is_not_out_of_bounds_witness :
  Physics.isOutOfBounds (Physics.enforceWorldBounds (mkVector3 40 (-70) 9)) (Some 0%Q)
  = false.
Proof.
  apply (enforced_is_not_out_of_bounds (mkVector3 40 (-70) 9) 0).
  unfold Qle; cbn; lia.
Defined.



(** X4.  Drag with a factor between 0 and 1 never speeds an object up, so an
    object that [isStopped] accepts stays accepted after [applyDrag];
    the default factor 0.95 is such a factor. *)
Theorem applyDrag_never_speeds_up (v : Vector3) (f : Q) (threshold : option Q) :
  (0 <= f <= 1)%Q ->
  (Physics.speedSquared (Physics.applyDrag v (Some f)) <= Physics.speedSquared v)%Q
  /\ (Physics.speedSquared (Physics.applyDrag v None) <= Physics.speedSquared v)%Q
  /\ (Physics.isStopped v threshold = true ->
      Physics.isStopped (Physics.applyDrag v (Some f)) threshold = true).
Proof.
  intros [Hf0 Hf1].
  assert (Hdrag : forall g : Q, (0 <= g <= 1)%Q ->
            (Physics.speedSquared (Physics.applyDrag v (Some g))
             <= Physics.speedSquared v)%Q).
  { intros g [Hg0 Hg1].
    unfold Physics.speedSquared, Physics.applyDrag; cbn [vx vy vz GameStorage.orElse].
    assert (Hgg : (g * g <= 1)%Q) by nra.
    assert (Hy : (0 <= vy v * vy v)%Q) by nra.
    assert (Hz : (0 <= vz v * vz v)%Q) by nra.
    assert (Hx' : (0 <= vx v * vx v)%Q) by nra.
    nra. }
  split; [apply Hdrag; split; assumption |].
  split.
  - apply (Hdrag 0.95%Q). split; unfold Qle; cbn; lia.
  - unfold Physics.isStopped. rewrite !Qlt_bool_iff. intros Hs.
    eapply Qle_lt_trans; [apply Hdrag; split; assumption | exact Hs].
Qed.

Lemma applyDrag_never_speeds_up_witness :
  (Physics.speedSquared (Physics.applyDrag (mkVector3 3 (-4) 0) (Some 0.5%Q))
   <= Physics.speedSquared (mkVector3 3 (-4) 0))%Q.
Proof.
  apply (applyDrag_never_speeds_up (mkVector3 3 (-4) 0) 0.5%Q None).
  split; unfold Qle; cbn; lia.
Defined.

(* ================================================================== *)
(** * Properties of the input mapping *)
(* ================================================================== *)

Lemma Qinv_le_one (l : Q) : (1 <= l)%Q -> (0 <= 1 / l <= 1)%Q.
Proof.
  intros Hl.
  assert (Hpos : (0 < l)%Q) by lra.
  split.
  - apply Qle_shift_div_l; [exact Hpos | lra].
  - apply Qle_shift_div_r; [exact Hpos | lra].
Qed.

Section Movement.

Context {three : Three}.

(** X5.  The movement intent has both components between -1 and 1, for any
    keys, as soon as the square root of 2 is at least 1. *)
Theorem processMovementKeys_bounded (keys : KeyRecord.t) :
  (1 <= Math_sqrt 2)%Q ->
  let intent := InputHandler.processMovementKeys keys in
  (-1 <= vx intent <= 1)%Q /\ (-1 <= vy intent <= 1)%Q /\ vz intent = 0%Q.
Proof.
  intros Hsqrt. 
  destruct (Qinv_le_one _ Hsqrt) as [H0 H1].
  unfold InputHandler.processMovementKeys.
  destruct (KeyRecord.pressed "w" keys), (KeyRecord.pressed "s" keys),
    (KeyRecord.pressed "d" keys), (KeyRecord.pressed "a" keys);
    cbn -[Math_sqrt Qdiv];
    try change (Math_sqrt _) with (Math_sqrt 2);
    repeat split; try reflexivity; try (unfold Qle; cbn; lia);
    try (setoid_replace ((1 - 0) / Math_sqrt 2)%Q with (1 / Math_sqrt 2)%Q by (unfold Qdiv; ring));
    try (setoid_replace ((0 - 1) / Math_sqrt 2)%Q with (- (1 / Math_sqrt 2))%Q by (unfold Qdiv; ring));
    lra.
Qed.

(** X6.  The inline movement code of the Game view computes the intent of
    [processMovementKeys]: the velocity it leaves is that intent times the
    configured speeds times the drag 0.95, and the position is the old one
    advanced by intent times speed times [deltaTime], clamped to the
    square of side 30 around the origin. *)
Theorem updateGame_move_uses_the_intent (r : Render) (deltaTime : Q) (st : State) :
  let intent := InputHandler.processMovementKeys (keysObject (keysRef st)) in
  let before := playerRef st in
  let after := playerRef (updateGame_move r deltaTime st) in
  (vx (velocity after) == vx intent * horizontalSpeed (r_settings r) * 0.95)%Q
  /\ (vy (velocity after) == vy intent * shipSpeed (r_settings r) * 0.95)%Q
  /\ (vx (position after)
      == Qmax (-15) (Qmin 15 (vx (position before)
                              + vx intent * horizontalSpeed (r_settings r) * deltaTime)))%Q
  /\ (vy (position after)
      == Qmax (-15) (Qmin 15 (vy (position before)
                              + vy intent * shipSpeed (r_settings r) * deltaTime)))%Q.
Proof.
  unfold updateGame_move, InputHandler.processMovementKeys, keysObject.
  unfold KeyRecord.pressed. cbn [KeyRecord.get String.eqb Ascii.eqb Bool.eqb].
  destruct (keysRef st) as [w a s d sp q e]. cbn [key_w key_a key_s key_d].
  destruct w, s, d, a;
    repeat match goal with
      | |- context [negb (Qeq_bool ?x 0) && negb (Qeq_bool ?y 0)] =>
          let c := eval vm_compute in (negb (Qeq_bool x 0) && negb (Qeq_bool y 0)) in
          change (negb (Qeq_bool x 0) && negb (Qeq_bool y 0)) with c
      end;
    cbn [set_motion with_playerRef playerRef position velocity multiplyScalar vx vy vz];
    repeat split; rewrite ?Qred_correct; try reflexivity.
Qed.

End Movement.

(* ================================================================== *)
(** * Properties of the keyboard hook *)
(* ================================================================== *)

Lemma KeyRecord_get_set_same (k : string) (v : bool) (keys : KeyRecord.t) :
  KeyRecord.get k (KeyRecord.set k v keys) = Some v.
Proof.
  induction keys as [| [k' v'] rest IH]; cbn.
  - rewrite String.eqb_refl. reflexivity.
  - destruct (String.eqb k' k) eqn:E; cbn; rewrite E; [reflexivity | exact IH].
Qed.

Lemma KeyRecord_get_set_other (k k' : string) (v : bool) (keys : KeyRecord.t) :
  k <> k' ->
  KeyRecord.get k' (KeyRecord.set k v keys) = KeyRecord.get k' keys.
Proof.
  intros Hne.
  induction keys as [| [k0 v0] rest IH]; cbn.
  - destruct (String.eqb_spec k k'); [contradiction | reflexivity].
  - destruct (String.eqb_spec k0 k) as [-> | Hk0]; cbn.
    + destruct (String.eqb_spec k k'); [contradiction | reflexivity].
    + destruct (String.eqb k0 k'); [reflexivity | exact IH].
Qed.

(** No letter of a lowered string is an upper-case letter. *)
Lemma lowerAscii_not_E (c : Ascii.ascii) : UseKeyboard.lowerAscii c <> Ascii.ascii_of_nat 69.
Proof.
  destruct c as [[] [] [] [] [] [] [] []]; vm_compute; discriminate.
Qed.

Lemma toLowerCase_not_Escape (s : string) : UseKeyboard.toLowerCase s <> "Escape"%string.
Proof.
  destruct s as [| c rest]; cbn.
  - discriminate.
  - intros H. injection H as Hc _. exact (lowerAscii_not_E c Hc).
Qed.

Lemma KeyRecord_has_set (k k' : string) (v : bool) (keys : KeyRecord.t) :
  KeyRecord.has k keys = true -> KeyRecord.has k (KeyRecord.set k' v keys) = true.
Proof.
  unfold KeyRecord.has. intros H.
  destruct (String.eqb_spec k' k) as [-> | Hne].
  - rewrite KeyRecord_get_set_same. reflexivity.
  - rewrite (KeyRecord_get_set_other k' k v keys Hne). exact H.
Qed.

Lemma handle_keeps_Escape (ev : UseKeyboard.KeyEvent) (keys : KeyRecord.t) :
  (forall k, KeyRecord.has k keys = true ->
             KeyRecord.has k (UseKeyboard.handle ev keys) = true)
  /\ KeyRecord.get "Escape" (UseKeyboard.handle ev keys) = KeyRecord.get "Escape" keys.
Proof.
  assert (Hgen : forall (e_key : string) (v : bool),
             let key := UseKeyboard.toLowerCase e_key in
             let k := if String.eqb key " " then " "%string else key in
             (forall k0, KeyRecord.has k0 keys = true ->
                         KeyRecord.has k0 (KeyRecord.set k v keys) = true)
             /\ KeyRecord.get "Escape" (KeyRecord.set k v keys)
                = KeyRecord.get "Escape" keys).
  { intros e_key v key k.
    assert (Hk : k = key).
    { subst k. destruct (String.eqb_spec key " "); congruence. }
    rewrite Hk. split.
    - intros k0. apply KeyRecord_has_set.
    - apply KeyRecord_get_set_other. apply toLowerCase_not_Escape. }
  destruct ev as [e_key | e_key]; cbn [UseKeyboard.handle];
    unfold UseKeyboard.handleKeyDown, UseKeyboard.handleKeyUp;
    destruct (UseKeyboard.isGameKey (UseKeyboard.toLowerCase e_key) keys);
    try (split; [intros k H; exact H | reflexivity]); apply Hgen.
Qed.

(** X8.  Whatever keys go down and up, in whatever order, the [keys] object
    keeps its six names and its [Escape] flag is never set: both handlers
    lower the name of the key first, and no lowered name is [Escape]. *)
Theorem useKeyboard_never_sees_Escape (evs : list UseKeyboard.KeyEvent) :
  (forall k, In k (map fst UseKeyboard.initialKeys) ->
             KeyRecord.has k (UseKeyboard.useKeyboard evs) = true)
  /\ InputHandler.isPausePressed (UseKeyboard.useKeyboard evs) = Some false.
Proof.
  unfold UseKeyboard.useKeyboard, InputHandler.isPausePressed.
  assert (Hinv : forall keys,
             (forall k, In k (map fst UseKeyboard.initialKeys) ->
                        KeyRecord.has k keys = true) ->
             KeyRecord.get "Escape" keys = Some false ->
             (forall k, In k (map fst UseKeyboard.initialKeys) ->
                KeyRecord.has k
                  (fold_left (fun keys ev => UseKeyboard.handle ev keys) evs keys) = true)
             /\ KeyRecord.get "Escape"
                  (fold_left (fun keys ev => UseKeyboard.handle ev keys) evs keys)
                = Some false).
  { induction evs as [| ev rest IH]; intros keys Hn He; cbn [fold_left].
    - split; assumption.
    - destruct (handle_keeps_Escape ev keys) as [H1 H2].
      apply IH; [intros k Hk; apply H1, Hn, Hk | congruence]. }
  apply Hinv; [| reflexivity].
  intros k Hk. cbn in Hk.
  repeat (destruct Hk as [<- | Hk]; [reflexivity |]). contradiction.
Qed.

(** X9.  A key of the object that goes down is set, whatever the case of its
    name in the event, and is cleared when it goes up again; no other key
    changes. *)
Theorem useKeyboard_press_and_release (e_key other : string) (keys : KeyRecord.t) :
  let key := UseKeyboard.toLowerCase e_key in
  KeyRecord.has key keys = true ->
  other <> key ->
  KeyRecord.get key (UseKeyboard.handleKeyDown e_key keys) = Some true
  /\ KeyRecord.get key (UseKeyboard.handleKeyUp e_key (UseKeyboard.handleKeyDown e_key keys))
     = Some false
  /\ KeyRecord.get other (UseKeyboard.handleKeyDown e_key keys) = KeyRecord.get other keys
  /\ KeyRecord.get other (UseKeyboard.handleKeyUp e_key keys) = KeyRecord.get other keys.
Proof.
  intros key Hhas Hother.
  assert (Hk : (if String.eqb key " " then " "%string else key) = key).
  { destruct (String.eqb_spec key " "); congruence. }
  assert (Hgame : forall ks, KeyRecord.has key ks = true ->
                             UseKeyboard.isGameKey key ks = true).
  { intros ks H. unfold UseKeyboard.isGameKey, KeyRecord.inObject.
    rewrite H. reflexivity. }
  assert (Hdown : UseKeyboard.handleKeyDown e_key keys = KeyRecord.set key true keys).
  { unfold UseKeyboard.handleKeyDown. fold key. rewrite (Hgame keys Hhas), Hk. reflexivity. }
  assert (Hhas' : KeyRecord.has key (KeyRecord.set key true keys) = true).
  { unfold KeyRecord.has. rewrite KeyRecord_get_set_same. reflexivity. }
  rewrite Hdown.
  split; [apply KeyRecord_get_set_same |].
  split.
  - unfold UseKeyboard.handleKeyUp. fold key. rewrite (Hgame _ Hhas'), Hk.
    apply KeyRecord_get_set_same.
  - split.
    + apply KeyRecord_get_set_other. congruence.
    + unfold UseKeyboard.handleKeyUp. fold key. rewrite (Hgame keys Hhas), Hk.
      apply KeyRecord_get_set_other. congruence.
Qed.

Lemma useKeyboard_press_and_release_witness :
  KeyRecord.get "w" (UseKeyboard.handleKeyDown "W" UseKeyboard.initialKeys) = Some true
  /\ KeyRecord.get "a" (UseKeyboard.handleKeyDown "W" UseKeyboard.initialKeys) = Some false.
Proof.
  destruct (useKeyboard_press_and_release "W" "a" UseKeyboard.initialKeys eq_refl)
    as (H1 & _ & H3 & _).
  - discriminate.
  - split; [exact H1 | exact H3].
Defined.

Lemma processMovementKeys_bounded_witness :
  let intent :=
    InputHandler.processMovementKeys (three := three_fixed)
      [("w"%string, true); ("d"%string, true)] in
  (-1 <= vx intent <= 1)%Q.
Proof.
  intros intent.
  assert (Hsqrt : (1 <= Math_sqrt (Three := three_fixed) 2)%Q).
  { vm_compute. discriminate. }
  exact (proj1 (processMovementKeys_bounded (three := three_fixed)
                  [("w"%string, true); ("d"%string, true)] Hsqrt)).
Defined.

(** X7.  A touch inside a screen of positive size is mapped into the square
    from (-1,-1) to (1,1), its centre to the origin. *)
Theorem processTouchInput_bounded (touchX touchY screenWidth screenHeight : Q) :
  (0 < screenWidth)%Q -> (0 < screenHeight)%Q ->
  (0 <= touchX <= screenWidth)%Q -> (0 <= touchY <= screenHeight)%Q ->
  let v := InputHandler.processTouchInput touchX touchY screenWidth screenHeight in
  (-1 <= vx v <= 1)%Q /\ (-1 <= vy v <= 1)%Q /\ vz v = 0%Q
  /\ veq (InputHandler.processTouchInput (screenWidth / 2) (screenHeight / 2)
            screenWidth screenHeight) (mkVector3 0 0 0).
Proof.
  intros Hw Hh Hx Hy v.
  assert (Hratio : forall t s : Q, (0 < s)%Q -> (0 <= t <= s)%Q ->
                                   (0 <= t / s <= 1)%Q).
  { intros t s Hs [Ht0 Ht1]. split.
    - apply Qle_shift_div_l; [exact Hs | lra].
    - apply Qle_shift_div_r; [exact Hs | lra]. }
  destruct (Hratio touchX screenWidth Hw Hx) as [Hx0 Hx1].
  destruct (Hratio touchY screenHeight Hh Hy) as [Hy0 Hy1].
  subst v. unfold InputHandler.processTouchInput, veq. cbn [vx vy vz].
  repeat split; try lra.
  - field. lra.
  - field. lra.
Qed.

Lemma processTouchInput_bounded_witness :
  let v := InputHandler.processTouchInput 200 150 800 600 in
  (-1 <= vx v <= 1)%Q /\ (-1 <= vy v <= 1)%Q.
Proof.
  intros v.
  assert (H1 : (0 < 800)%Q) by reflexivity.
  assert (H2 : (0 < 600)%Q) by reflexivity.
  assert (H3 : (0 <= 200 <= 800)%Q) by (split; vm_compute; discriminate).
  assert (H4 : (0 <= 150 <= 600)%Q) by (split; vm_compute; discriminate).
  destruct (processTouchInput_bounded 200 150 800 600 H1 H2 H3 H4) as (A & B & _).
  split; [exact A | exact B].
Defined.

(* ================================================================== *)
(** * Properties of the whole slice *)
(* ================================================================== *)

Lemma Store_dispatch_highScore (a : Store.Action)
  (state : Store.GameState) (ls : GameStorage.LocalStorage) :
  let s' := Store.dispatch a (state, ls) in
  Store.highScore state <= Store.highScore (fst s')
  /\ (GameStorage.orElse (GameStorage.item_highScore ls) 0 = Store.highScore state ->
      GameStorage.orElse (GameStorage.item_highScore (snd s')) 0
      = Store.highScore (fst s'))
  /\ GameStorage.item_data (snd s') = GameStorage.item_data ls.
Proof.
  destruct a; cbn [Store.dispatch]; try (cbn; repeat split; auto; lia).
  unfold Store.endGame.
  destruct (Z.ltb_spec (Store.highScore state) (Store.score state));
    cbn; repeat split; auto; lia.
Qed.

(** X10.  Whatever actions are dispatched, in whatever order, the high score of
    the store never decreases, the ['highScore'] item of the local storage
    holds it whenever it did at the start (as it does for the initial
    state), and the other item of the storage is not touched. *)
Theorem store_highScore_is_kept (actions : list Store.Action)
  (state : Store.GameState) (ls : GameStorage.LocalStorage) :
  let s' := Store.dispatchAll actions (state, ls) in
  Store.highScore state <= Store.highScore (fst s')
  /\ (GameStorage.orElse (GameStorage.item_highScore ls) 0 = Store.highScore state ->
      GameStorage.orElse (GameStorage.item_highScore (snd s')) 0
      = Store.highScore (fst s'))
  /\ GameStorage.item_data (snd s') = GameStorage.item_data ls
  /\ GameStorage.orElse (GameStorage.item_highScore ls) 0
     = Store.highScore (Store.initialState ls).
Proof.
  unfold Store.dispatchAll.
  revert state ls.
  induction actions as [| a rest IH]; intros state ls; cbn [fold_left].
  - cbn. repeat split; auto; lia.
  - pose proof (Store_dispatch_highScore a state ls) as (H1 & H2 & H3).
    destruct (Store.dispatch a (state, ls)) as [state1 ls1]. cbn [fst snd] in *.
    destruct (IH state1 ls1) as (K1 & K2 & K3 & _).
    repeat split.
    + lia.
    + intros H. apply K2, H2, H.
    + congruence.
Qed.

(** X11.  A projectile whose id no projectile of the store has is removed again
    by [removeProjectile] of that id, which gives the store back as it
    was. *)
Theorem addProjectile_removeProjectile (p : Store.Projectile) (state : Store.GameState) :
  forallb (fun q => negb (String.eqb (Store.pj_id q) (Store.pj_id p)))
    (Store.projectiles state) = true ->
  Store.removeProjectile (Store.pj_id p) (Store.addProjectile p state) = state.
Proof.
  intros Hfresh.
  unfold Store.removeProjectile, Store.addProjectile, Store.with_projectiles.
  destruct state as [run paused lvl pl en pjs sc hs over]. cbn in *.
  f_equal.
  rewrite filter_app. cbn. rewrite String.eqb_refl. cbn. rewrite app_nil_r.
  induction pjs as [| q rest IH]; cbn in *; [reflexivity |].
  apply andb_true_iff in Hfresh. destruct Hfresh as [Hq Hrest].
  rewrite Hq. f_equal. apply IH, Hrest.
Qed.

Lemma addProjectile_removeProjectile_witness :
  let p := Store.mkProjectile "b" Store.zero Store.zero Store.zero true "player"
             1 2000 (3 # 2) in
  let q := Store.mkProjectile "a" Store.zero Store.zero Store.zero true "player"
             1 2000 (3 # 2) in
  let state := Store.addProjectile q (Store.initialState GameStorage.emptyStorage) in
  Store.removeProjectile "b" (Store.addProjectile p state) = state.
Proof.
  intros p q state.
  apply (addProjectile_removeProjectile p state). reflexivity.
Defined.

(** X12.  Ending a game that is already ended changes neither the store nor the
    local storage. *)
Theorem store_endGame_twice (state : Store.GameState) (ls : GameStorage.LocalStorage) :
  Store.dispatchAll [Store.a_endGame; Store.a_endGame] (state, ls)
  = Store.dispatchAll [Store.a_endGame] (state, ls).
Proof.
  unfold Store.dispatchAll. cbn [fold_left Store.dispatch].
  destruct (Store.endGame state ls) as [state1 ls1] eqn:E.
  unfold Store.endGame in *.
  destruct (Z.ltb_spec (Store.highScore state) (Store.score state)) as [Hlt | Hge];
    injection E as <- <-; cbn [Store.dispatch]; unfold Store.endGame; cbn [Store.highScore Store.score].
  - rewrite Z.ltb_irrefl. reflexivity.
  - destruct (Z.ltb_spec (Store.highScore state) (Store.score state)); [lia |].
    reflexivity.
Qed.

(* ================================================================== *)
(** * Properties of the collision handler *)
(* ================================================================== *)

(** A [forEach] that pushes [g a] for the elements that pass [test]. *)
Lemma forEach_push {A B : Type} (test : A -> bool) (g : A -> B) (l : list A) :
  forall collisions,
    CollisionHandler.forEach l
      (fun a collisions => if test a then collisions ++ [g a] else collisions)
      collisions
    = collisions ++ map g (filter test l).
Proof.
  unfold CollisionHandler.forEach.
  induction l as [| a rest IH]; intros collisions; cbn [fold_left filter].
  - cbn. rewrite app_nil_r. reflexivity.
  - rewrite IH. destruct (test a); cbn [map].
    + rewrite <- app_assoc. reflexivity.
    + reflexivity.
Qed.

Section Collisions.

Context {three : Three}.

(** X14.  [checkAllCollisions] lists first the enemies that touch the player,
    with no projectile, in the order of [enemies]; then, for each
    projectile of the player in the order of [projectiles], the enemies that
    touch it, in the order of [enemies].  A projectile of another owner
    gives no entry, and a projectile is not used up by a hit. *)
Theorem checkAllCollisions_lists_every_hit (player : Store.Player)
  (projectiles : list Store.Projectile) (enemies : list Store.Enemy) :
  CollisionHandler.checkAllCollisions player projectiles enemies
  = map (fun enemy => (None, enemy))
      (filter (CollisionHandler.checkPlayerEnemyCollision player) enemies)
    ++ flat_map
         (fun projectile =>
            if String.eqb (Store.pj_owner projectile) "player"
            then map (fun enemy => (Some projectile, enemy))
                   (filter (CollisionHandler.checkProjectileEnemyCollision projectile)
                      enemies)
            else [])
         projectiles.
Proof.
  unfold CollisionHandler.checkAllCollisions.
  rewrite (forEach_push (CollisionHandler.checkPlayerEnemyCollision player)
             (fun enemy => (None, enemy))).
  cbn [app].
  generalize (map (fun enemy : Store.Enemy => (@None Store.Projectile, enemy))
                (filter (CollisionHandler.checkPlayerEnemyCollision player) enemies)).
  unfold CollisionHandler.forEach at 1.
  induction projectiles as [| projectile rest IH]; intros collisions;
    cbn [fold_left flat_map].
  - rewrite app_nil_r. reflexivity.
  - rewrite IH.
    destruct (String.eqb (Store.pj_owner projectile) "player"); cbn [negb].
    + rewrite (forEach_push
                 (CollisionHandler.checkProjectileEnemyCollision projectile)
                 (fun enemy => (Some projectile, enemy))).
      rewrite <- app_assoc. reflexivity.
    + reflexivity.
Qed.

End Collisions.

(* ================================================================== *)
(** * Properties of the game context *)
(* ================================================================== *)

Lemma sameGame_dispatch (a : Store.Action) (s : Store.GameState * GameStorage.LocalStorage) :
  collisionAction a = true -> sameGame s (Store.dispatch a s).
Proof.
  destruct s as [state ls].
  destruct a; cbn [collisionAction]; try discriminate; intros _;
    unfold sameGame; cbn; repeat split; try apply incl_refl.
  apply incl_filter.
Qed.

Lemma sameGame_dispatchAll (actions : list Store.Action) :
  forall s, forallb collisionAction actions = true ->
            sameGame s (Store.dispatchAll actions s).
Proof.
  unfold Store.dispatchAll.
  induction actions as [| a rest IH]; intros s Hall; cbn [fold_left].
  - unfold sameGame. repeat split. apply incl_refl.
  - cbn in Hall. apply andb_true_iff in Hall. destruct Hall as [Ha Hrest].
    pose proof (sameGame_dispatch a s Ha) as (H1 & H2 & H3 & H4 & H5 & H6 & H7 & H8).
    destruct (IH (Store.dispatch a s) Hrest) as (K1 & K2 & K3 & K4 & K5 & K6 & K7 & K8).
    unfold sameGame. repeat split; try congruence.
    eapply incl_tran; eassumption.
Qed.

Section Provider.

Context {three : Three}.

Lemma hitFirst_collisionActions (projectile : Store.Projectile)
  (enemies all : list Store.Enemy) :
  forallb collisionAction (GameContext.hitFirst projectile enemies all) = true.
Proof.
  induction enemies as [| enemy rest IH]; cbn [GameContext.hitFirst]; [reflexivity |].
  destruct (negb (Store.en_active enemy)); [exact IH |].
  destruct (Qlt_bool _ 2); [| exact IH].
  destruct (Qle_bool _ 0); reflexivity.
Qed.

Lemma checkCollisions_collisionActions (gameState : Store.GameState) :
  forallb collisionAction (GameContext.checkCollisions gameState) = true.
Proof.
  unfold GameContext.checkCollisions.
  induction (Store.projectiles gameState) as [| p rest IH]; cbn [flat_map];
    [reflexivity |].
  rewrite forallb_app, IH, andb_true_r.
  destruct (_ || _); [reflexivity | apply hitFirst_collisionActions].
Qed.

(** X15.  One call of [updateGameState] never touches the health or the lives
    of the player, the flags, the level, the high score or the local
    storage, whatever collides; and while the game is paused or not running
    it dispatches nothing. *)
Theorem updateGameState_never_ends_a_game (gameState : Store.GameState)
  (deltaTime : Q) (ls : GameStorage.LocalStorage) :
  let s' := Store.dispatchAll (GameContext.updateGameState gameState deltaTime)
              (gameState, ls) in
  Store.pl_health (Store.player (fst s')) = Store.pl_health (Store.player gameState)
  /\ Store.pl_lives (Store.player (fst s')) = Store.pl_lives (Store.player gameState)
  /\ Store.isRunning (fst s') = Store.isRunning gameState
  /\ Store.isPaused (fst s') = Store.isPaused gameState
  /\ Store.gameOver (fst s') = Store.gameOver gameState
  /\ Store.level (fst s') = Store.level gameState
  /\ Store.highScore (fst s') = Store.highScore gameState
  /\ snd s' = ls
  /\ (negb (Store.isRunning gameState) || Store.isPaused gameState = true ->
      s' = (gameState, ls)).
Proof.
  unfold GameContext.updateGameState.
  destruct (negb (Store.isRunning gameState) || Store.isPaused gameState).
  - cbn. repeat split.
  - cbv zeta.
    unfold Store.dispatchAll. rewrite fold_left_app.
    match goal with
    | |- context [fold_left ?f (GameContext.checkCollisions gameState) ?s0] =>
        pose proof (sameGame_dispatchAll (GameContext.checkCollisions gameState) s0
                      (checkCollisions_collisionActions gameState))
          as (K1 & K2 & K3 & K4 & K5 & K6 & K7 & _);
        unfold Store.dispatchAll in *;
        set (s1 := fold_left f (GameContext.checkCollisions gameState) s0) in *
    end.
    cbn in K1, K2, K3, K4, K5, K6, K7.
    rewrite K1, K2, K3, K4, K5, K6, K7. cbn.
    repeat split. discriminate.
Qed.

(** X16.  After a call of [updateGameState] in a running game every projectile
    of the store is active and has life time left. *)
Theorem updateGameState_keeps_live_projectiles (gameState : Store.GameState)
  (deltaTime : Q) (ls : GameStorage.LocalStorage) :
  Store.isRunning gameState = true -> Store.isPaused gameState = false ->
  let s' := Store.dispatchAll (GameContext.updateGameState gameState deltaTime)
              (gameState, ls) in
  Forall (fun p => (0 < Store.pj_lifetime p)%Q /\ Store.pj_active p = true)
    (Store.projectiles (fst s')).
Proof.
  intros Hrun Hpause.
  unfold GameContext.updateGameState. rewrite Hrun, Hpause. cbv zeta. cbn [negb orb].
  unfold Store.dispatchAll. rewrite fold_left_app.
  match goal with
  | |- context [fold_left ?f (GameContext.checkCollisions gameState) ?s0] =>
      pose proof (sameGame_dispatchAll (GameContext.checkCollisions gameState) s0
                    (checkCollisions_collisionActions gameState))
        as (_ & _ & _ & _ & _ & _ & _ & K);
      unfold Store.dispatchAll in *;
      set (s1 := fold_left f (GameContext.checkCollisions gameState) s0) in *
  end.
  cbn in K.
  apply Forall_forall. intros p Hp. apply K in Hp.
  apply filter_In in Hp. destruct Hp as [_ Hp].
  apply andb_true_iff in Hp. destruct Hp as [Hlife Hactive].
  split; [apply Qlt_bool_iff, Hlife | exact Hactive].
Qed.

Lemma hitFirst_updateEnemies (projectile : Store.Projectile)
  (all : list Store.Enemy) (l : list Store.Enemy) :
  forall enemies,
    incl enemies all ->
    In (Store.a_updateEnemies l) (GameContext.hitFirst projectile enemies all) ->
    Forall (fun e => exists e0, In e0 all /\ Store.en_id e = Store.en_id e0
                                /\ Store.en_position e = Store.en_position e0) l.
Proof.
  induction enemies as [| enemy rest IH]; intros Hincl Hin;
    cbn [GameContext.hitFirst] in Hin; [contradiction |].
  assert (Hrest : incl rest all) by (intros x Hx; apply Hincl; right; exact Hx).
  destruct (negb (Store.en_active enemy)); [apply IH; assumption |].
  destruct (Qlt_bool _ 2); [| apply IH; assumption].
  destruct Hin as [Hin | Hin]; [discriminate |].
  destruct (Qle_bool _ 0).
  - destruct Hin as [Hin | [Hin | []]]; discriminate.
  - destruct Hin as [Hin | []]. injection Hin as <-.
    apply Forall_app. split.
    + apply Forall_forall. intros e He. apply filter_In in He.
      exists e. repeat split. apply He.
    + constructor; [| constructor].
      exists enemy. repeat split. apply Hincl. left. reflexivity.
Qed.

(** X17.  [checkCollisions] reads the enemies of the render, not the ones that
    [updateGameState] has just moved: when the last collision of a call
    damages an enemy without destroying it, the enemies left in the store
    are the ones written by that collision, each at the position an enemy
    of the same id had before the call. *)
Theorem damaging_hit_undoes_the_move (gameState : Store.GameState) (deltaTime : Q)
  (ls : GameStorage.LocalStorage) (actions : list Store.Action)
  (l : list Store.Enemy) :
  Store.isRunning gameState = true -> Store.isPaused gameState = false ->
  GameContext.checkCollisions gameState = actions ++ [Store.a_updateEnemies l] ->
  let s' := Store.dispatchAll (GameContext.updateGameState gameState deltaTime)
              (gameState, ls) in
  Store.enemies (fst s') = l
  /\ Forall (fun e => exists e0, In e0 (Store.enemies gameState)
                                 /\ Store.en_id e = Store.en_id e0
                                 /\ Store.en_position e = Store.en_position e0) l.
Proof.
  intros Hrun Hpause Hlast. cbv zeta. split.
  - unfold GameContext.updateGameState. rewrite Hrun, Hpause. cbv zeta.
    cbn [negb orb]. rewrite Hlast.
    unfold Store.dispatchAll. rewrite !fold_left_app. cbn [fold_left].
    destruct (fold_left _ actions _) as [state1 ls1]. reflexivity.
  - assert (Hin : In (Store.a_updateEnemies l) (GameContext.checkCollisions gameState)).
    { rewrite Hlast. apply in_or_app. right. left. reflexivity. }
    unfold GameContext.checkCollisions in Hin.
    apply in_flat_map in Hin. destruct Hin as (p & _ & Hin).
    destruct (_ || _); [contradiction |].
    apply (hitFirst_updateEnemies p (Store.enemies gameState) l
             (Store.enemies gameState)); [apply incl_refl | exact Hin].
Qed.

End Provider.

Lemma updateGameState_keeps_live_projectiles_witness :
  Forall (fun p => (0 < Store.pj_lifetime p)%Q /\ Store.pj_active p = true)
    (Store.projectiles
       (fst (Store.dispatchAll
               (GameContext.updateGameState (three := three_fixed) sampleStore (1 # 100))
               (sampleStore, GameStorage.emptyStorage)))).
Proof.
  exact (updateGameState_keeps_live_projectiles (three := three_fixed) sampleStore
           (1 # 100) GameStorage.emptyStorage eq_refl eq_refl).
Defined.

Lemma damaging_hit_undoes_the_move_witness :
  map Store.en_position
    (Store.enemies
       (fst (Store.dispatchAll
               (GameContext.updateGameState (three := three_fixed) sampleStore (1 # 100))
               (sampleStore, GameStorage.emptyStorage))))
  = map Store.en_position (Store.enemies sampleStore).
Proof.
  assert (Hlast : GameContext.checkCollisions (three := three_fixed) sampleStore
                  = [Store.a_removeProjectile "p1"]
                    ++ [Store.a_updateEnemies
                          [Store.mkEnemy "e1" (mkVector3 0 1 0) Store.zero
                             (mkVector3 0 (-2) 0) true (10 - 1) 100 "basic"]]).
  { reflexivity. }
  destruct (damaging_hit_undoes_the_move (three := three_fixed) sampleStore (1 # 100)
              GameStorage.emptyStorage _ _ eq_refl eq_refl Hlast) as [H _].
  rewrite H. reflexivity.
Defined.

(* ================================================================== *)
(** * The older Game view: what its loop can do to the player *)
(* ================================================================== *)

Lemma insertByDue_Forall (P : Z * Callback -> Prop) (t : Z * Callback)
  (l : list (Z * Callback)) :
  P t -> Forall P l -> Forall P (insertByDue t l).
Proof.
  intros Ht Hl. induction Hl as [| u rest Hu Hrest IH]; cbn [insertByDue].
  - constructor; [exact Ht | constructor].
  - destruct (fst u <=? fst t); constructor; auto.
Qed.

Lemma sortByDue_Forall (P : Z * Callback -> Prop) (l : list (Z * Callback)) :
  Forall P l -> Forall P (sortByDue l).
Proof.
  unfold sortByDue.
  assert (H : forall acc, Forall P acc -> Forall P l ->
                          Forall P (fold_left (fun acc t => insertByDue t acc) l acc)).
  { induction l as [| t rest IH]; intros acc Hacc Hl; cbn [fold_left]; [exact Hacc |].
    inversion Hl; subst. apply IH; [apply insertByDue_Forall |]; assumption. }
  apply H. constructor.
Qed.

Lemma filter_Forall {A : Type} (P : A -> Prop) (f : A -> bool) (l : list A) :
  Forall P l -> Forall P (filter f l).
Proof.
  intros H. apply Forall_forall. intros x Hx. apply filter_In in Hx.
  rewrite Forall_forall in H. apply H, Hx.
Qed.

Lemma olderLoopKeeps_handleCollision (s : Settings) (damage : Z) (st : State) :
  0 <= damage <= 50 ->
  olderLoopKeeps st ->
  olderLoopKeeps (OlderGame.handleCollision (OlderGame.firstClosure s) damage st).
Proof.
  intros Hd (Hl & Hg & Hh & Ht).
  unfold OlderGame.handleCollision, OlderGame.firstClosure.
  cbn [OlderGame.c_render OlderGame.c_playerHealth OlderGame.c_playerLives r_gameOver].
  rewrite orb_false_r.
  destruct (isInvincible (playerRef st)); [repeat split; assumption || lia |].
  destruct (Z.eqb_spec (Z.max 0 (100 - damage)) 0) as [E | _]; [lia |].
  rewrite (Z.max_r 0 (100 - damage)) by lia.
  unfold olderLoopKeeps. cbn -[Z.sub].
  split; [exact Hl |]. split; [exact Hg |]. split; [lia |].
  apply Forall_app. split; [exact Ht |].
  constructor; [reflexivity | constructor].
Qed.

Lemma olderLoopKeeps_callbacks (due : list (Z * Callback)) :
  Forall (fun t => snd t = cb_clearInvincible) due ->
  forall st,
    olderLoopKeeps st ->
    olderLoopKeeps
      (fold_left
         (fun s t => runCallback (snd t) (set_clock (Z.max (clock (browser s)) (fst t)) s))
         due st).
Proof.
  intros Hdue. induction Hdue as [| t rest Ht Hrest IH]; intros st Hst; cbn [fold_left].
  - exact Hst.
  - apply IH. rewrite Ht. cbn [runCallback].
    destruct Hst as (Hl & Hg & Hh & Hto).
    unfold olderLoopKeeps. cbn. repeat split; assumption || lia.
Qed.

Lemma olderLoopKeeps_elapse (ms : Z) (st : State) :
  olderLoopKeeps st -> olderLoopKeeps (elapse ms st).
Proof.
  intros (Hl & Hg & Hh & Hto). unfold elapse.
  set (target := clock (browser st) + ms).
  set (due := filter (fun t => fst t <=? target) (timeouts (browser st))).
  set (later := filter (fun t => negb (fst t <=? target)) (timeouts (browser st))).
  assert (Hdue : Forall (fun t => snd t = cb_clearInvincible) (sortByDue due)).
  { apply sortByDue_Forall, filter_Forall, Hto. }
  assert (Hlater : olderLoopKeeps (set_timeouts later st)).
  { unfold olderLoopKeeps. cbn. repeat split; try assumption; try lia.
    apply filter_Forall, Hto. }
  pose proof (olderLoopKeeps_callbacks (sortByDue due) Hdue _ Hlater)
    as (Kl & Kg & Kh & Kto).
  unfold olderLoopKeeps. cbn. repeat split; assumption || lia.
Qed.

(** X18.  The animation loop of the older Game view is started by the mount
    effect and so calls the collision handlers of the first render, which
    read health 100 and lives 3 whatever has happened since: however
    many enemies reach the bottom or ram the ship, and however much time
    passes, no life is lost, the game is never over and health never falls
    below 50. *)
Theorem older_loop_never_takes_a_life (s : Settings) (now : Z) (randoms : list Q)
  (g : GameSlice.GameState) (ls : GameStorage.LocalStorage)
  (evs : list OlderGame.LoopEvent) :
  let st := OlderGame.loopRun (OlderGame.firstClosure s) evs
              (firstState s now randoms g ls) in
  playerLives (hooks st) = 3
  /\ gameOver (hooks st) = false
  /\ 50 <= playerHealth (hooks st) <= 100.
Proof.
  assert (H : forall st, olderLoopKeeps st ->
                         olderLoopKeeps
                           (OlderGame.loopRun (OlderGame.firstClosure s) evs st)).
  { unfold OlderGame.loopRun.
    induction evs as [| ev rest IH]; intros st Hst; cbn [fold_left]; [exact Hst |].
    apply IH. destruct ev as [| | ms]; cbn [OlderGame.loopStep].
    - unfold OlderGame.handleEnemyReachedBottom.
      cbn [OlderGame.firstClosure OlderGame.c_render r_gameOver negb].
      apply olderLoopKeeps_handleCollision; [| exact Hst].
      cbn [r_settings]. destruct (difficulty s); cbn; lia.
    - unfold OlderGame.handlePlayerEnemyCollision.
      apply olderLoopKeeps_handleCollision; [| exact Hst].
      cbn [OlderGame.firstClosure OlderGame.c_render r_settings].
      destruct (difficulty s); cbn; lia.
    - apply olderLoopKeeps_elapse, Hst. }
  intros st.
  destruct (H (firstState s now randoms g ls)) as (Hl & Hg & Hh & _).
  - unfold olderLoopKeeps. cbn. repeat split; try lia. constructor.
  - subst st. repeat split; assumption || lia.
Qed.

(* ================================================================== *)
(** * Properties of the game loop hook *)
(* ================================================================== *)

Lemma frames_from_previous (times : list Q) :
  forall previous,
    List.length (UseGameLoop.frames times (Some previous)) = List.length times
    /\ Forall (fun d => (d <= 0.1)%Q) (UseGameLoop.frames times (Some previous)).
Proof.
  induction times as [| time rest IH]; intros previous; cbn.
  - split; [reflexivity | constructor].
  - destruct (IH time) as [Hlen Hall]. split.
    + rewrite Hlen. reflexivity.
    + constructor; [apply Q.le_min_r | exact Hall].
Qed.

(** X19.  The first frame of a loop only records its time; every later frame
    calls the callback once, with a delta of at most 0.1 second. *)
Theorem useGameLoop_caps_every_delta (times : list Q) :
  List.length (UseGameLoop.frames times None) = pred (List.length times)
  /\ Forall (fun d => (d <= 0.1)%Q) (UseGameLoop.frames times None).
Proof.
  destruct times as [| time rest]; cbn.
  - split; [reflexivity | constructor].
  - apply frames_from_previous.
Qed.



(* ================================================================== *)
(** * What the loops of the Game view keep *)
(* ================================================================== *)

Lemma untouched_refl (st : State) : untouched st st.
Proof. unfold untouched. repeat split. Qed.

Lemma untouched_trans (a b c : State) : untouched a b -> untouched b c -> untouched a c.
Proof.
  unfold untouched.
  intros (H1 & H2 & H3 & H4 & H5 & H6) (K1 & K2 & K3 & K4 & K5 & K6).
  repeat split; congruence.
Qed.

Lemma tidy_untouched (carried : Z) (st st' : State) :
  untouched st st' -> tidy carried st -> tidy carried st'.
Proof.
  unfold untouched, tidy, inField.
  intros (H1 & H2 & H3 & H4 & H5 & _) (K1 & K2 & K3 & K4).
  rewrite H1, H2, H3, H4, H5. repeat split; try apply K2; assumption.
Qed.

Lemma untouched_damagePlayer (r : Render) (amount : Z) (st : State) :
  untouched st (damagePlayer r amount st).
Proof.
  unfold damagePlayer.
  destruct (isInvincible (playerRef st) || r_gameOver r); [apply untouched_refl |].
  destruct (Z.max 0 (playerHealth (hooks st) - amount) =? 0);
    [destruct (playerLives (hooks st) - 1 <=? 0) |]; untouched_fields.
Qed.

Lemma GameSlice_endGame_score (g : GameSlice.GameState) (ls : GameStorage.LocalStorage) :
  GameSlice.score (fst (GameSlice.endGame g ls)) = GameSlice.score g.
Proof.
  unfold GameSlice.endGame.
  destruct (GameSlice.highScore g <? GameSlice.score g); reflexivity.
Qed.

Lemma untouched_endGame (r : Render) (st : State) : untouched st (endGame r st).
Proof.
  unfold untouched, endGame. cbn -[GameSlice.endGame GameStorage.updateHighScore].
  repeat split. apply GameSlice_endGame_score.
Qed.

Lemma untouched_runCallback (cb : Callback) (st : State) :
  untouched st (runCallback cb st).
Proof.
  destruct cb as [r | |]; cbn [runCallback].
  - apply untouched_endGame.
  - untouched_fields.
  - untouched_fields.
Qed.

Lemma untouched_callbacks (due : list (Z * Callback)) :
  forall st,
    untouched st
      (fold_left
         (fun s t => runCallback (snd t) (set_clock (Z.max (clock (browser s)) (fst t)) s))
         due st).
Proof.
  induction due as [| t rest IH]; intros st; cbn [fold_left].
  - apply untouched_refl.
  - eapply untouched_trans; [| apply IH].
    eapply untouched_trans; [| apply untouched_runCallback].
    untouched_fields.
Qed.

Lemma untouched_elapse (ms : Z) (st : State) : untouched st (elapse ms st).
Proof.
  unfold elapse.
  match goal with
  | |- untouched _ (set_clock _ ?x) =>
      apply untouched_trans with (b := x); [| untouched_fields]
  end.
  match goal with
  | |- untouched _ (fold_left _ _ ?x) =>
      apply untouched_trans with (b := x); [untouched_fields | apply untouched_callbacks]
  end.
Qed.

Section Loops.

Context {three : Three}.

Lemma untouched_handleKeyDown (r : Render) (k : Key) (st : State) :
  untouched st (handleKeyDown r k st).
Proof. destruct k; untouched_fields. Qed.

(** ** The explosion leaves everything but the supply of random numbers *)

Lemma createParticle_frame (position : Vector3) (st : State) :
  let st' := snd (createParticle position st) in
  hooks st' = hooks st /\ redux st' = redux st /\ playerRef st' = playerRef st
  /\ projectilesRef st' = projectilesRef st /\ enemiesRef st' = enemiesRef st
  /\ effectsRef st' = effectsRef st.
Proof. cbn. repeat split. Qed.

Lemma createParticles_frame (n : nat) (position : Vector3) :
  forall st,
    let st' := snd (createParticles n position st) in
    hooks st' = hooks st /\ redux st' = redux st /\ playerRef st' = playerRef st
    /\ projectilesRef st' = projectilesRef st /\ enemiesRef st' = enemiesRef st
    /\ effectsRef st' = effectsRef st.
Proof.
  induction n as [| n IH]; intros st; cbn [createParticles].
  - cbn. repeat split.
  - pose proof (createParticle_frame position st) as H1.
    destruct (createParticle position st) as [p st1]. cbn [snd] in H1.
    specialize (IH st1).
    destruct (createParticles n position st1) as [ps st2]. cbn [snd] in *.
    destruct H1 as (A1 & A2 & A3 & A4 & A5 & A6).
    destruct IH as (B1 & B2 & B3 & B4 & B5 & B6).
    repeat split; congruence.
Qed.

Lemma createExplosion_frame (position : Vector3) (st : State) :
  let st' := snd (createExplosion position st) in
  hooks st' = hooks st /\ redux st' = redux st /\ playerRef st' = playerRef st
  /\ projectilesRef st' = projectilesRef st /\ enemiesRef st' = enemiesRef st
  /\ effectsRef st' = effectsRef st.
Proof.
  unfold createExplosion.
  pose proof (createParticles_frame 15 position st) as H.
  destruct (createParticles 15 position st) as [ps st']. exact H.
Qed.

(** ** The inner loop over the projectiles *)

Lemma projectileLoop_keeps (fromLast : list Projectile) :
  forall enemy,
    let '(kept, enemy', destroyed) := projectileLoop fromLast enemy in
    incl kept fromLast
    /\ e_position enemy' = e_position enemy
    /\ e_points enemy' = e_points enemy
    /\ (destroyed = false -> (0 < e_mesh_health enemy)%Q -> (0 < e_mesh_health enemy')%Q).
Proof.
  induction fromLast as [| projectile rest IH]; intros enemy; cbn [projectileLoop].
  - repeat split; auto. apply incl_refl.
  - destruct (checkCollision _ _ _ _).
    + unfold takeDamage.
      set (h := Qred (e_mesh_health enemy - p_damage projectile)).
      destruct (Qle_bool h 0) eqn:Eh.
      * repeat split; auto; [apply incl_tl, incl_refl | discriminate].
      * specialize (IH (mkEnemy (e_position enemy) (e_velocity enemy) (e_health enemy)
                          h (e_points enemy))).
        destruct (projectileLoop rest _) as [[kept enemy'] destroyed].
        destruct IH as (I1 & I2 & I3 & I4).
        cbn [e_position e_points e_mesh_health] in *.
        repeat split; auto.
        -- apply incl_tl, I1.
        -- intros Hd _. apply I4; [exact Hd |].
           apply Qnot_le_lt. intros Hle. apply Qle_bool_iff in Hle. congruence.
    + specialize (IH enemy).
      destruct (projectileLoop rest enemy) as [[kept enemy'] destroyed].
      destruct IH as (I1 & I2 & I3 & I4).
      repeat split; auto.
      intros x [<- | Hx]; [left; reflexivity | right; apply I1, Hx].
Qed.

(** ** One enemy *)

Lemma tidy_updateEnemy (carried : Z) (r : Render) (dt : Q) (enemy : Enemy) (st : State) :
  (0 < e_mesh_health enemy)%Q ->
  tidy carried st ->
  tidy carried (fst (updateEnemy r dt enemy st))
  /\ enemiesRef (fst (updateEnemy r dt enemy st)) = enemiesRef st
  /\ (forall e, snd (updateEnemy r dt enemy st) = Some e -> enemyAlive e).
Proof.
  intros Hhealth Ht. unfold updateEnemy.
  destruct (Qlt_bool (vy (e_position (moveEnemy dt enemy))) (-15)) eqn:Ebottom.
  - cbn [fst snd]. split; [| split; [| discriminate]].
    + destruct (negb (r_gameOver r)); [| exact Ht].
      eapply tidy_untouched; [apply untouched_damagePlayer | exact Ht].
    + destruct (negb (r_gameOver r)); [| reflexivity].
      apply (untouched_damagePlayer r _ st).
  - destruct (_ && _).
    + cbn [fst snd]. split; [| split; [| discriminate]].
      * eapply tidy_untouched; [apply untouched_damagePlayer | exact Ht].
      * apply (untouched_damagePlayer r _ st).
    + pose proof (projectileLoop_keeps (rev (projectilesRef st)) (moveEnemy dt enemy)) as H.
      destruct (projectileLoop _ _) as [[fromLast enemy'] destroyed].
      destruct H as (Hincl & Hpos & Hpts & Halive).
      destruct Ht as (T1 & T2 & T3 & T4).
      assert (Hprojectiles : Forall projectileLive (rev fromLast)).
      { apply Forall_forall. intros p Hp. rewrite Forall_forall in T3.
        apply T3. apply in_rev. apply Hincl. apply in_rev in Hp. exact Hp. }
      destruct destroyed.
      * pose proof (createExplosion_frame (e_position enemy')
                      (with_projectiles (rev fromLast) st))
          as (F1 & F2 & F3 & F4 & F5 & F6).
        destruct (createExplosion _ _) as [explosion st'].
        cbn [fst snd] in *. cbn in F1, F2, F3, F4, F5, F6.
        split; [| split; [cbn; exact F5 | discriminate]].
        unfold tidy, inField. cbn. rewrite F1, F2, F3, F4, F5.
        repeat split; try apply T2; try assumption. lia.
      * cbn [fst snd]. split; [| split; [reflexivity |]].
        -- unfold tidy, inField. cbn. repeat split; try apply T2; assumption.
        -- intros e He. injection He as <-.
           unfold enemyAlive. rewrite Hpos. split.
           ++ apply Qnot_lt_le. intros Hlt. apply Qlt_bool_iff in Hlt. congruence.
           ++ apply Halive; [reflexivity | exact Hhealth].
Qed.

Lemma tidy_enemyLoop (carried : Z) (r : Render) (dt : Q) (fromLast : list Enemy) :
  forall kept st,
    Forall (fun e => (0 < e_mesh_health e)%Q) fromLast ->
    Forall enemyAlive kept ->
    tidy carried st ->
    tidy carried (fst (enemyLoop r dt fromLast kept st))
    /\ Forall enemyAlive (snd (enemyLoop r dt fromLast kept st)).
Proof.
  induction fromLast as [| enemy rest IH]; intros kept st Hall Hkept Ht;
    cbn [enemyLoop].
  - split; assumption.
  - inversion Hall as [| ? ? Hhealth Hrest]; subst.
    pose proof (tidy_updateEnemy carried r dt enemy st Hhealth Ht) as (H1 & _ & H3).
    destruct (updateEnemy r dt enemy st) as [st' stays]. cbn [fst snd] in *.
    apply IH; [exact Hrest | | exact H1].
    destruct stays as [e |]; [| exact Hkept].
    constructor; [apply H3; reflexivity | exact Hkept].
Qed.

Lemma tidy_updateEnemies (carried : Z) (r : Render) (dt : Q) (st : State) :
  tidy carried st -> tidy carried (updateEnemies r dt st).
Proof.
  intros Ht. unfold updateEnemies.
  assert (Hall : Forall (fun e => (0 < e_mesh_health e)%Q) (rev (enemiesRef st))).
  { destruct Ht as (_ & _ & _ & T4). apply Forall_forall. intros e He.
    rewrite Forall_forall in T4. apply in_rev in He. apply (T4 e He). }
  pose proof (tidy_enemyLoop carried r dt (rev (enemiesRef st)) [] st Hall
                (Forall_nil _) Ht) as [H1 H2].
  destruct (enemyLoop _ _ _ _ _) as [st' kept]. cbn [fst snd] in *.
  destruct H1 as (T1 & T2 & T3 & _).
  unfold tidy, inField. cbn. repeat split; try apply T2; assumption.
Qed.

(** ** The other passes of [updateGame] *)

Lemma tidy_updateGame_move (carried : Z) (r : Render) (dt : Q) (st : State) :
  score (hooks st) + carried = GameSlice.score (redux st) ->
  Forall projectileLive (projectilesRef st) ->
  Forall enemyAlive (enemiesRef st) ->
  tidy carried (updateGame_move r dt st).
Proof.
  intros H1 H3 H4. unfold updateGame_move.
  destruct (_ && _); unfold tidy, inField; cbn -[Qmax Qmin Qred];
    (split; [exact H1 |]); (split; [| split; assumption]);
    split; apply Qclamp_between; unfold Qle; cbn; lia.
Qed.

Lemma Qabs_in_field (x : Q) : (-15 <= x <= 15)%Q -> (Math_abs x <= 20)%Q.
Proof.
  intros [H1 H2]. unfold Math_abs. apply Qabs_Qle_condition. split; lra.
Qed.

Lemma tidy_updateGame_fire (carried : Z) (r : Render) (st : State) :
  tidy carried st -> tidy carried (updateGame_fire r st).
Proof.
  intros Ht. unfold updateGame_fire.
  destruct (key_space _); [| exact Ht].
  destruct (canFire _ _ _); [| exact Ht].
  destruct Ht as (T1 & T2 & T3 & T4).
  unfold tidy, inField. cbn -[createProjectile].
  split; [exact T1 |]. split; [exact T2 |]. split; [| exact T4].
  apply Forall_app. split; [exact T3 |].
  constructor; [| constructor].
  unfold projectileLive, createProjectile. cbn [p_lifetime p_position GameStorage.orElse].
  destruct T2 as [Tx Ty].
  split; [reflexivity |]. split; apply Qabs_in_field; assumption.
Qed.

Lemma updateProjectiles_live (dt : Q) (st : State) :
  Forall projectileLive (projectilesRef (updateProjectiles dt st)).
Proof.
  unfold updateProjectiles. cbn [projectilesRef with_projectiles].
  apply Forall_forall. intros p Hp. apply filter_In in Hp. destruct Hp as [_ Hp].
  unfold projectileExpired in Hp.
  apply negb_true_iff in Hp.
  apply orb_false_iff in Hp. destruct Hp as [Hp Hy].
  apply orb_false_iff in Hp. destruct Hp as [Hl Hx].
  unfold projectileLive. repeat split.
  - apply Qnot_le_lt. intros H. apply Qle_bool_iff in H. congruence.
  - apply Qnot_lt_le. intros H. apply Qlt_bool_iff in H. congruence.
  - apply Qnot_lt_le. intros H. apply Qlt_bool_iff in H. congruence.
Qed.

Lemma tidy_updateProjectiles (carried : Z) (dt : Q) (st : State) :
  tidy carried st -> tidy carried (updateProjectiles dt st).
Proof.
  intros (T1 & T2 & T3 & T4).
  pose proof (updateProjectiles_live dt st) as H.
  unfold tidy, inField.
  split; [exact T1 |]. split; [exact T2 |]. split; [exact H | exact T4].
Qed.

Lemma updateEffects_live (dt : Q) (st : State) :
  Forall explosionLive (effectsRef (updateEffects dt st)).
Proof.
  unfold updateEffects. cbn [effectsRef with_effects].
  apply Forall_forall. intros e He. apply filter_In in He. destruct He as [He Hn].
  apply in_map_iff in He. destruct He as (e0 & <- & _).
  unfold explosionLive. split.
  - intros Hnil. rewrite Hnil in Hn. discriminate.
  - unfold updateEffect. cbn [particles].
    apply Forall_forall. intros p Hp. apply filter_In in Hp. destruct Hp as [Hp Hl].
    apply in_map_iff in Hp. destruct Hp as (p0 & <- & _).
    split.
    + apply Qnot_le_lt. intros H. apply Qle_bool_iff in H.
      rewrite H in Hl. discriminate.
    + unfold updateParticle. cbn [pt_opacity]. apply Q.le_min_l.
Qed.

Lemma tidy_updateGame (carried : Z) (r : Render) (dt : Q) (st : State) :
  tidy carried st ->
  tidy carried (updateGame r dt st)
  /\ Forall explosionLive (effectsRef (updateGame r dt st)).
Proof.
  intros Ht. unfold updateGame. split; [| apply updateEffects_live].
  assert (H : tidy carried
                (updateEnemies r dt
                   (updateProjectiles dt (updateGame_fire r (updateGame_move r dt st))))).
  { apply tidy_updateEnemies, tidy_updateProjectiles, tidy_updateGame_fire.
    destruct Ht as (T1 & _ & T3 & T4). apply tidy_updateGame_move; assumption. }
  destruct H as (T1 & T2 & T3 & T4).
  unfold tidy, inField. cbn. repeat split; try apply T2; assumption.
Qed.

Lemma tidy_spawnEnemy (carried : Z) (r : Render) (st : State) :
  tidy carried st ->
  tidy carried (spawnEnemy r st) /\ effectsRef (spawnEnemy r st) = effectsRef st.
Proof.
  intros (T1 & T2 & T3 & T4). unfold spawnEnemy.
  destruct (difficulty (r_settings r)); cbn -[Qred];
    (split; [| reflexivity]); unfold tidy, inField; cbn -[Qred];
    (split; [exact T1 |]); (split; [exact T2 |]); (split; [exact T3 |]);
    (apply Forall_app; split; [exact T4 |]);
    (constructor; [| constructor]); unfold enemyAlive; cbn;
    split; reflexivity || (unfold Qle; cbn; lia).
Qed.

(** ** Every event *)

Lemma tidy_step (carried : Z) (ev : Event) (st : State) :
  tidy carried st /\ Forall explosionLive (effectsRef st) ->
  tidy carried (step ev st) /\ Forall explosionLive (effectsRef (step ev st)).
Proof.
  intros [Ht He].
  assert (Hun : forall st', untouched st st' ->
                  tidy carried st' /\ Forall explosionLive (effectsRef st')).
  { intros st' Hu. split; [eapply tidy_untouched; eassumption |].
    destruct Hu as (_ & _ & _ & _ & _ & ->). exact He. }
  destruct ev as [ms | | | k | k | |]; cbn [step].
  - apply Hun, untouched_elapse.
  - destruct (animation (browser st)) as [r |]; [| split; assumption].
    unfold animate. set (dt := Qmin _ _).
    destruct (negb (r_isPaused r)).
    + assert (Ht' : tidy carried (with_previousTime (Some (inject_Z (clock (browser st)))) st)).
      { eapply tidy_untouched; [| exact Ht]. untouched_fields. }
      destruct (tidy_updateGame carried r dt _ Ht') as [K1 K2].
      split; [| exact K2].
      eapply tidy_untouched; [| exact K1]. untouched_fields.
    + apply Hun. untouched_fields.
  - destruct (spawnTimer (browser st)) as [[p r] |]; [| split; assumption].
    unfold enemySpawnTimer.
    destruct (_ && _); [| split; assumption].
    destruct (tidy_spawnEnemy carried r st Ht) as [K1 K2].
    split; [exact K1 | rewrite K2; exact He].
  - destruct (keyListener (browser st)); [| split; assumption].
    apply Hun, untouched_handleKeyDown.
  - destruct (keyListener (browser st)); [| split; assumption].
    apply Hun. untouched_fields.
  - unfold applyDirectDamage.
    destruct (r_gameOver _); [split; assumption |].
    apply Hun, untouched_damagePlayer.
  - apply Hun. untouched_fields.
Qed.

Lemma tidy_run (evs : list Event) (s : Settings) (now : Z) (randoms : list Q)
  (g : GameSlice.GameState) (ls : GameStorage.LocalStorage) :
  let st := run evs (mount s now randoms g ls) in
  tidy (GameSlice.score g) st /\ Forall explosionLive (effectsRef st).
Proof.
  assert (H : forall st,
             tidy (GameSlice.score g) st /\ Forall explosionLive (effectsRef st) ->
             tidy (GameSlice.score g) (run evs st)
             /\ Forall explosionLive (effectsRef (run evs st))).
  { unfold run. induction evs as [| ev rest IH]; intros st Hst; cbn [fold_left].
    - exact Hst.
    - apply IH, tidy_step, Hst. }
  apply H. split.
  - unfold tidy, inField. cbn. repeat split; try constructor; unfold Qle; cbn; lia.
  - constructor.
Qed.

(** X21.  Whatever happens after the mount, the ship stays inside the square of
    side 30 around the origin. *)
Theorem player_stays_in_the_field (s : Settings) (now : Z) (randoms : list Q)
  (g : GameSlice.GameState) (ls : GameStorage.LocalStorage) (evs : list Event) :
  inField (run evs (mount s now randoms g ls)).
Proof. apply (tidy_run evs s now randoms g ls). Qed.

(** X22.  The score of the view and the score of the store advance together:
    after any events the store holds the score it had when the view was
    mounted plus the score of the view; the view never resets the score of
    the store. *)
Theorem scores_advance_together (s : Settings) (now : Z) (randoms : list Q)
  (g : GameSlice.GameState) (ls : GameStorage.LocalStorage) (evs : list Event) :
  let st := run evs (mount s now randoms g ls) in
  GameSlice.score (redux st) = GameSlice.score g + score (hooks st).
Proof.
  intros st. destruct (tidy_run evs s now randoms g ls) as [(H & _) _].
  fold st in H. lia.
Qed.

(** X23.  Whatever happens after the mount, every projectile in the array has
    life time left and is within 20 units of both axes. *)
Theorem projectiles_stay_live (s : Settings) (now : Z) (randoms : list Q)
  (g : GameSlice.GameState) (ls : GameStorage.LocalStorage) (evs : list Event) :
  Forall projectileLive (projectilesRef (run evs (mount s now randoms g ls))).
Proof. apply (tidy_run evs s now randoms g ls). Qed.

(** X24.  Whatever happens after the mount, every enemy in the array is above
    the bottom edge and has health left. *)
Theorem enemies_stay_alive (s : Settings) (now : Z) (randoms : list Q)
  (g : GameSlice.GameState) (ls : GameStorage.LocalStorage) (evs : list Event) :
  Forall enemyAlive (enemiesRef (run evs (mount s now randoms g ls))).
Proof. apply (tidy_run evs s now randoms g ls). Qed.

(** X25.  Whatever happens after the mount, every explosion in the array has a
    particle, and every particle has life time left and an opacity of at
    most 1. *)
Theorem explosions_stay_live (s : Settings) (now : Z) (randoms : list Q)
  (g : GameSlice.GameState) (ls : GameStorage.LocalStorage) (evs : list Event) :
  Forall explosionLive (effectsRef (run evs (mount s now randoms g ls))).
Proof. apply (tidy_run evs s now randoms g ls). Qed.

End Loops.

(* ================================================================== *)
(** * Properties of the settings screens *)
(* ================================================================== *)

Lemma onTheSliders_initialState : onTheSliders SettingsSlice.initialState.
Proof. unfold onTheSliders. cbn. repeat split; unfold Qle; cbn; lia. Qed.

Lemma Qclamp_within (lo hi lo' hi' x : Q) :
  (lo <= hi)%Q -> (lo' <= lo)%Q -> (hi <= hi')%Q ->
  (lo' <= Qmax lo (Qmin hi x) <= hi')%Q.
Proof.
  intros H1 H2 H3. destruct (Qclamp_between lo hi x H1) as [A B]. split; lra.
Qed.

Lemma onTheSliders_reducer (a : SettingsScreens.UserAction)
  (state : SettingsSlice.SettingsState) :
  onTheSliders state ->
  onTheSliders (SettingsSlice.reducer state (SettingsScreens.dispatched a)).
Proof.
  intros H.
  destruct a as [screen slider value | level | |]; cbn [SettingsScreens.dispatched].
  - destruct H as (H1 & H2 & H3 & H4 & H5 & H6 & H7 & H8).
    destruct slider, screen;
      unfold SettingsScreens.handleSliderChange; cbn -[Qmax Qmin];
      unfold onTheSliders; cbn -[Qmax Qmin];
      repeat (split; [first [assumption
                            | apply Qclamp_within; unfold Qle; cbn; lia] |]);
      first [assumption | apply Qclamp_within; unfold Qle; cbn; lia].
  - exact H.
  - exact H.
  - apply onTheSliders_initialState.
Qed.

(** X26.  Whatever is done on the settings panel and on the Settings view, in
    whatever order, every numeric setting stays within the widest range
    that a slider gives it; the fire rate in particular stays positive.
    The default fire rate 1.5 is above the range 0.05..0.5 of the panel's
    slider, and a move of that slider never brings it back. *)
Theorem settings_stay_on_the_sliders (actions : list SettingsScreens.UserAction) :
  onTheSliders (SettingsScreens.use actions SettingsSlice.initialState)
  /\ (forall value state,
        SettingsSlice.fireRate
          (SettingsScreens.use
             [SettingsScreens.slide SettingsScreens.SettingsPanel
                SettingsScreens.FireRate value] state)
        < SettingsSlice.fireRate SettingsSlice.initialState)%Q.
Proof.
  split.
  - unfold SettingsScreens.use.
    generalize onTheSliders_initialState.
    generalize SettingsSlice.initialState.
    induction actions as [| a rest IH]; intros state Hstate; cbn [fold_left].
    + exact Hstate.
    + apply IH, onTheSliders_reducer, Hstate.
  - intros value state. cbn -[Qmax Qmin].
    unfold SettingsScreens.handleSliderChange. cbn -[Qmax Qmin].
    assert (H : (Qmax 0.05 (Qmin 0.5 value) <= 0.5)%Q).
    { apply Qclamp_between. unfold Qle; cbn; lia. }
    assert (H' : (0.5 < 1.5)%Q) by reflexivity.
    lra.
Qed.

(* ================================================================== *)
(** * The storage helpers together, and the Home view *)
(* ================================================================== *)

Lemma storageCall_fields (c : StorageCall) (ls : GameStorage.LocalStorage) :
  Home.totalGamesPlayed (storageCall c ls)
  = Home.totalGamesPlayed ls + increments [c]
  /\ GameStorage.persistedHighScore (storageCall c ls)
     = bestScore (GameStorage.persistedHighScore ls) [c].
Proof.
  unfold Home.totalGamesPlayed, GameStorage.persistedHighScore.
  destruct c as [score now | now | s]; cbn [storageCall increments bestScore].
  - unfold GameStorage.updateHighScore.
    destruct (Z.ltb_spec (GameStorage.highScore (GameStorage.loadGameData ls)) score);
      cbn; split; lia.
  - cbn. split; lia.
  - cbn. split; lia.
Qed.

Lemma increments_app (a b : list StorageCall) :
  increments (a ++ b) = increments a + increments b.
Proof.
  induction a as [| c rest IH]; [reflexivity |].
  destruct c; cbn [app increments]; rewrite IH; lia.
Qed.

(** X27.  However the calls of [updateHighScore], [incrementGamesPlayed] and
    [saveGameSettings] are mixed, the stored count of games goes up by the
    number of [incrementGamesPlayed] calls and the stored high score is the
    largest of the one stored before and the scores passed to
    [updateHighScore]. *)
Theorem storage_helpers_keep_their_fields (calls : list StorageCall)
  (ls : GameStorage.LocalStorage) :
  Home.totalGamesPlayed (storageCalls calls ls)
  = Home.totalGamesPlayed ls + increments calls
  /\ GameStorage.persistedHighScore (storageCalls calls ls)
     = bestScore (GameStorage.persistedHighScore ls) calls.
Proof.
  unfold storageCalls. revert ls.
  induction calls as [| c rest IH]; intros ls; cbn [fold_left].
  - cbn. split; lia.
  - destruct (IH (storageCall c ls)) as [H1 H2].
    destruct (storageCall_fields c ls) as [K1 K2].
    rewrite H1, H2, K1, K2. split.
    + change (c :: rest) with ([c] ++ rest). rewrite increments_app. lia.
    + destruct c; reflexivity.
Qed.

(* ================================================================== *)
(** * What the Home view shows after a game *)
(* ================================================================== *)

Section HomeView.

Context {three : Three}.

(** X28.  After [endGame], called from any render, the high score that the Home
    view displays is the largest of the two high scores kept before, the
    score of the store and the score of that render.  So after any events
    it is at least the score of the view (plus the score the store had at
    the mount), even when the render that ends the game holds an old
    score. *)
Theorem home_displays_the_score (r : Render) (s : Settings) (now : Z)
  (randoms : list Q) (g : GameSlice.GameState) (ls : GameStorage.LocalStorage)
  (evs : list Event) :
  let st := run evs (mount s now randoms g ls) in
  let st' := endGame r st in
  Home.displayHighScore (GameSlice.highScore (redux st')) (localStorage st')
  = Z.max (Z.max (GameSlice.highScore (redux st)) (GameSlice.score (redux st)))
      (Z.max (GameStorage.persistedHighScore (localStorage st)) (r_score r))
  /\ GameSlice.score g + score (hooks st)
     <= Home.displayHighScore (GameSlice.highScore (redux st')) (localStorage st').
Proof.
  intros st st'.
  assert (Hexact :
            Home.displayHighScore (GameSlice.highScore (redux st')) (localStorage st')
            = Z.max (Z.max (GameSlice.highScore (redux st)) (GameSlice.score (redux st)))
                (Z.max (GameStorage.persistedHighScore (localStorage st)) (r_score r))).
  { subst st'. unfold endGame, Home.displayHighScore.
    cbn -[GameSlice.endGame GameStorage.updateHighScore Z.max].
    fold (GameStorage.persistedHighScore
            (GameStorage.updateHighScore (r_score r) (clock (browser st))
               (snd (GameSlice.endGame (redux st) (localStorage st))))).
    rewrite updateHighScore_max.
    unfold GameSlice.endGame, GameStorage.persistedHighScore, GameStorage.loadGameData.
    destruct (Z.ltb_spec (GameSlice.highScore (redux st)) (GameSlice.score (redux st)));
      cbn -[Z.max]; lia. }
  split; [exact Hexact |].
  rewrite Hexact.
  destruct (tidy_run evs s now randoms g ls) as [(H & _) _].
  fold st in H. lia.
Qed.

(** ** Spawning *)

(** X29.  The enemy that [spawnEnemy] adds is the last of the array; when the
    random number drawn is one that [Math.random()] can return, it appears
    on the top edge between x = -10 and x = 10, moving straight down, with
    its health untouched. *)
Theorem spawnEnemy_at_the_top (r : Render) (st : State) :
  unitInterval (hd 0%Q (entropy (browser st))) ->
  exists enemy,
    enemiesRef (spawnEnemy r st) = enemiesRef st ++ [enemy]
    /\ (-10 <= vx (e_position enemy) <= 10)%Q
    /\ vy (e_position enemy) = 20%Q
    /\ vx (e_velocity enemy) = 0%Q
    /\ (vy (e_velocity enemy) < 0)%Q
    /\ e_mesh_health enemy = e_health enemy
    /\ entropy (browser (spawnEnemy r st)) = tl (entropy (browser st)).
Proof.
  intros [H0 H1]. unfold spawnEnemy.
  destruct (difficulty (r_settings r)); cbn -[Qred];
    eexists; (split; [reflexivity |]); cbn -[Qred];
    rewrite Qred_correct; repeat split; try lra.
Qed.

(** ** Explosions *)

Lemma createParticle_draws (position : Vector3) (st : State) :
  let '(p, st') := createParticle position st in
  pt_position p = position
  /\ pt_opacity p = 0.8%Q
  /\ pt_lifetime p = Qred (hd 0%Q (skipn 6 (entropy (browser st))) * 500 + 500)
  /\ entropy (browser st') = skipn 7 (entropy (browser st)).
Proof.
  cbn -[Qred].
  destruct (entropy (browser st)) as [| q1 [| q2 [| q3 [| q4 [| q5 [| q6 [| q7 rest]]]]]]];
    cbn -[Qred]; repeat split.
Qed.

Lemma unitInterval_hd (l : list Q) :
  Forall unitInterval l -> unitInterval (hd 0%Q l).
Proof.
  intros H. destruct H as [| q rest Hq _]; cbn; [| exact Hq].
  unfold unitInterval. lra.
Qed.

Lemma Forall_skipn {A : Type} (P : A -> Prop) (n : nat) (l : list A) :
  Forall P l -> Forall P (skipn n l).
Proof.
  revert l. induction n as [| n IH]; intros l H; [exact H |].
  destruct H as [| a rest _ Hrest]; cbn; [constructor | apply IH, Hrest].
Qed.

Lemma createParticles_draws (n : nat) (position : Vector3) :
  forall st,
    let '(ps, st') := createParticles n position st in
    List.length ps = n
    /\ Forall (fun p => pt_position p = position /\ pt_opacity p = 0.8%Q) ps
    /\ (Forall unitInterval (entropy (browser st)) ->
        Forall (fun p => (500 <= pt_lifetime p <= 1000)%Q) ps)
    /\ entropy (browser st') = skipn (7 * n) (entropy (browser st)).
Proof.
  induction n as [| n IH]; intros st; cbn [createParticles].
  - repeat split; constructor.
  - pose proof (createParticle_draws position st) as H.
    destruct (createParticle position st) as [p st1].
    destruct H as (H1 & H2 & H3 & H4).
    specialize (IH st1).
    destruct (createParticles n position st1) as [ps st2].
    destruct IH as (I1 & I2 & I3 & I4).
    split; [cbn; rewrite I1; reflexivity |].
    split; [constructor; [split; assumption | exact I2] |].
    split.
    + intros Hall. constructor.
      * rewrite H3, Qred_correct.
        destruct (unitInterval_hd _ (Forall_skipn unitInterval 6 _ Hall)) as [A B].
        split; lra.
      * apply I3. rewrite H4. apply Forall_skipn, Hall.
    + rewrite I4, H4, skipn_skipn. f_equal. lia.
Qed.

(** X30.  An explosion has 15 particles, all at the place of the explosion with
    opacity 0.8, and uses up 105 random numbers; when those are numbers
    that [Math.random()] can return, every particle lives between 500 and
    1000 milliseconds. *)
Theorem createExplosion_particles (position : Vector3) (st : State) :
  Forall unitInterval (entropy (browser st)) ->
  let explosion := fst (createExplosion position st) in
  let st' := snd (createExplosion position st) in
  List.length (particles explosion) = 15%nat
  /\ Forall (fun p => pt_position p = position /\ pt_opacity p = 0.8%Q
                      /\ (500 <= pt_lifetime p <= 1000)%Q)
       (particles explosion)
  /\ entropy (browser st') = skipn 105 (entropy (browser st)).
Proof.
  intros Hall. unfold createExplosion.
  pose proof (createParticles_draws 15 position st) as H.
  destruct (createParticles 15 position st) as [ps st1].
  destruct H as (H1 & H2 & H3 & H4). cbn [fst snd particles].
  split; [exact H1 |]. split; [| exact H4].
  specialize (H3 Hall).
  rewrite Forall_forall in *. intros p Hp.
  destruct (H2 p Hp) as [A B]. repeat split; try assumption; apply (H3 p Hp).
Qed.

End HomeView.

Lemma spawnEnemy_at_the_top_witness :
  exists enemy,
    enemiesRef (spawnEnemy (firstRender medium) (mounted medium)) = [enemy]
    /\ (-10 <= vx (e_position enemy) <= 10)%Q.
Proof.
  assert (H : unitInterval (hd 0%Q (entropy (browser (mounted medium))))).
  { split; vm_compute; discriminate. }
  destruct (spawnEnemy_at_the_top (firstRender medium)
              (mounted medium) H)
    as (enemy & H1 & H2 & _).
  exists enemy. split; [exact H1 | exact H2].
Defined.

Lemma createExplosion_particles_witness :
  List.length
    (particles (fst (createExplosion (three := three_fixed) origin (mounted medium))))
  = 15%nat.
Proof.
  assert (H : Forall unitInterval (entropy (browser (mounted medium)))).
  { apply Forall_forall. intros q Hq. apply repeat_spec in Hq. subst q.
    split; vm_compute; discriminate. }
  exact (proj1 (createExplosion_particles (three := three_fixed) origin
                  (mounted medium) H)).
Defined.
